(** * AI image editor backend: job lifecycle

    A shallow embedding of the job lifecycle of the backend
    ([app/fal_api.py], [app/models.py], [app/schemas.py], [app/main.py]):
    submission to the inference service, the poll wrapper, the background
    monitor, the on-demand status check and the owner-scoped reads.

    - Python exceptions are values: a call returns [Return v] or [Raise e].
    - The jobs table is a finite map from the integer primary key to the
      row; a query [filter(Job.id == k).first()] is a lookup.
    - Every call that leaves the process (a request of [fal_client], a
      sleep of the monitor) is written to a log, in order.
    - Debug [print]s are not modelled. *)

From Stdlib Require Import ZArith String List Lia Floats.
From stdpp Require Import base option list gmap fin_maps strings pretty sorting.

Local Open Scope string_scope.
Local Open Scope Z_scope.

(** ** Python values *)

(** [bytes] objects. *)
Abbreviation bytes := (list Byte.byte).

(** Exceptions below [Exception]; the two kinds the code tells apart are
    FastAPI's [HTTPException] and everything else, which carries the text
    [str(e)] gives. *)
Inductive Exception :=
| HTTPException (status_code : Z) (detail : string)
| Error (message : string).

(** [str(e)]; Starlette prints an [HTTPException] as "code: detail". *)
Definition str (e : Exception) : string :=
  match e with
  | HTTPException status_code detail => pretty status_code +:+ ": " +:+ detail
  | Error message => message
  end.

Inductive outcome (A : Type) :=
| Return (value : A)
| Raise (e : Exception).
Arguments Return {A} value.
Arguments Raise {A} e.

(** Truth value of an [Optional[str]]: [None] and the empty string are
    false. *)
Definition truthy (s : option string) : bool :=
  match s with
  | Some s => negb (String.eqb s "")
  | None => false
  end.

(** Truth value of an optional [bytes]. *)
Definition truthy_bytes (b : option bytes) : bool :=
  match b with
  | Some (_ :: _) => true
  | _ => false
  end.

(** A [str] is held as the bytes of its UTF-8 encoding. A byte 10xxxxxx
    continues the character that started before it. *)
Definition is_continuation_byte (a : Ascii.ascii) : bool :=
  match a with
  | Ascii.Ascii _ _ _ _ _ _ false true => true
  | _ => false
  end.

(** [len(s)] of a [str]: the number of its characters (code points), one
    for each byte that starts a character. *)
Fixpoint len (s : string) : nat :=
  match s with
  | EmptyString => 0
  | String a s => if is_continuation_byte a then len s else S (len s)
  end.

(** ** The inference service, as [fal_client] shows it *)

Module fal_client.

(** The class of the object [fal_client.status] returns. *)
Inductive Status := Queued | InProgress | Completed | OtherStatus.

(** The result payload: a dictionary with an optional list of images,
    each with an optional url, and an optional description. [None] is an
    absent key. *)
Record Image := { url : option string }.

Record Output := {
  images : option (list Image);
  description : option string
}.

(** The [arguments] dictionary of a submission. *)
Record Arguments := {
  prompt : string;
  image_urls : option (list string);
  num_images : Z;
  output_format : string;
  aspect_ratio : option string
}.

(** What the service answers to each of the three requests at the moment
    one wrapper call is made. A wrapper call makes each request at most
    once, so any run of it against the real service is covered by some
    [Client]. *)
Record Client := {
  submit : string -> Arguments -> outcome string;
  status : option string -> string -> outcome Status;
  result : option string -> string -> outcome Output
}.

End fal_client.

(** ** Effects leaving the process *)

Inductive event :=
| SubmitRequest (endpoint : string)
| StatusQuery (application : option string) (request_id : string)
| ResultFetch (application : option string) (request_id : string)
| Sleep (seconds : Z).

Definition is_status_query (e : event) : bool :=
  match e with StatusQuery _ _ => true | _ => false end.

Definition is_sleep (e : event) : bool :=
  match e with Sleep _ => true | _ => false end.

(** How many status queries a log holds. *)
Definition status_queries (log : list event) : nat :=
  length (List.filter is_status_query log).

(** ** app/fal_api.py *)

Module fal_api.

(** The dictionary [submit_fal_job] returns. *)
Record Submission := {
  request_id : string;
  submission_status : string;
  submitted_application : string
}.

(** The dictionary [check_job_status] returns; [None] is an absent key, so
    [result_url s] is [s.get("result_url")]. *)
Record StatusResult := {
  status : string;
  result_url : option string;
  description : option string;
  result_data : option fal_client.Output;
  message : option string;
  error : option string
}.

(** [result.get("images", [{}])[0].get("url") if result.get("images") else None] *)
Definition first_image_url (result : fal_client.Output) : option string :=
  match fal_client.images result with
  | Some (image :: _) => fal_client.url image
  | _ => None
  end.

Section fal_api.

(** [FAL_API_KEY = os.getenv("FAL_KEY")] *)
Variable FAL_API_KEY : option string.

(** [base64.b64encode(image_bytes).decode('utf-8')] *)
Variable b64encode : bytes -> string.

Definition submit_fal_job (c : fal_client.Client) (prompt : string)
    (image_bytes : option bytes) : list event * outcome Submission :=
  if negb (truthy FAL_API_KEY) then
    ([], Raise (HTTPException 500 "FAL API key not configured"))
  else
    let '(endpoint, arguments) :=
      match image_bytes with
      | Some ((_ :: _) as image_bytes) =>
          ("fal-ai/nano-banana/edit",
           {| fal_client.prompt := prompt;
              fal_client.image_urls :=
                Some ["data:image/jpeg;base64," +:+ b64encode image_bytes];
              fal_client.num_images := 1;
              fal_client.output_format := "jpeg";
              fal_client.aspect_ratio := None |})
      | _ =>
          ("fal-ai/nano-banana",
           {| fal_client.prompt := prompt;
              fal_client.image_urls := None;
              fal_client.num_images := 1;
              fal_client.output_format := "jpeg";
              fal_client.aspect_ratio := Some "1:1" |})
      end in
    match fal_client.submit c endpoint arguments with
    | Return handler_request_id =>
        ([SubmitRequest endpoint],
         Return {| request_id := handler_request_id;
                   submission_status := "submitted";
                   submitted_application := endpoint |})
    | Raise e =>
        ([SubmitRequest endpoint],
         Raise (HTTPException 500
                  ("Failed to submit job to AI service: " +:+ str e)))
    end.

Definition check_job_status (c : fal_client.Client) (request_id : string)
    (application : option string) : list event * outcome StatusResult :=
  if negb (truthy FAL_API_KEY) then
    ([], Raise (HTTPException 500 "FAL API key not configured"))
  else
    match fal_client.status c application request_id with
    | Return fal_client.Completed =>
        match fal_client.result c application request_id with
        | Return result =>
            ([StatusQuery application request_id;
              ResultFetch application request_id],
             Return {| status := "completed";
                       result_url := first_image_url result;
                       description :=
                         Some (default "" (fal_client.description result));
                       result_data := Some result;
                       message := None;
                       error := None |})
        | Raise result_error =>
            ([StatusQuery application request_id;
              ResultFetch application request_id],
             Return {| status := "failed";
                       result_url := None;
                       description := None;
                       result_data := None;
                       message := None;
                       error :=
                         Some ("Job marked as completed but result unavailable: "
                               +:+ str result_error) |})
        end
    | Return fal_client.InProgress =>
        ([StatusQuery application request_id],
         Return {| status := "processing";
                   result_url := None;
                   description := None;
                   result_data := None;
                   message := Some "Job is currently being processed";
                   error := None |})
    | Return fal_client.Queued =>
        ([StatusQuery application request_id],
         Return {| status := "queued";
                   result_url := None;
                   description := None;
                   result_data := None;
                   message := Some "Job is in queue waiting to start";
                   error := None |})
    | Return fal_client.OtherStatus =>
        ([StatusQuery application request_id],
         Return {| status := "pending";
                   result_url := None;
                   description := None;
                   result_data := None;
                   message := Some "Job status: pending";
                   error := None |})
    | Raise e =>
        match fal_client.result c application request_id with
        | Return result =>
            ([StatusQuery application request_id;
              ResultFetch application request_id],
             Return {| status := "completed";
                       result_url := first_image_url result;
                       description :=
                         Some (default "" (fal_client.description result));
                       result_data := None;
                       message := None;
                       error := None |})
        | Raise result_error =>
            ([StatusQuery application request_id;
              ResultFetch application request_id],
             Return {| status := "pending";
                       result_url := None;
                       description := None;
                       result_data := None;
                       message := None;
                       error :=
                         Some ("Unable to determine job status: " +:+ str e) |})
        end
    end.

End fal_api.

End fal_api.

(** ** app/models.py *)

Module models.

Record User := {
  id : Z;
  email : string;
  hashed_password : string
}.

(** A row of [jobs]. The primary key [id] is the key the row is stored
    under; the two timestamp columns are filled in by the database server
    and read by none of the operations below. *)
Record Job := {
  prompt : string;
  image_url : option string;
  result_url : option string;
  status : string;
  application : option string;
  fal_request_id : option string;
  owner_id : Z;
  strength : option float
}.

(** [job.status = s] *)
Definition set_status (s : string) (job : Job) : Job :=
  {| prompt := prompt job;
     image_url := image_url job;
     result_url := result_url job;
     status := s;
     application := application job;
     fal_request_id := fal_request_id job;
     owner_id := owner_id job;
     strength := strength job |}.

(** [job.result_url = u] *)
Definition set_result_url (u : option string) (job : Job) : Job :=
  {| prompt := prompt job;
     image_url := image_url job;
     result_url := u;
     status := status job;
     application := application job;
     fal_request_id := fal_request_id job;
     owner_id := owner_id job;
     strength := strength job |}.

(** [strength = Column(Float, default=0.7)]: the double nearest to 0.7. *)
Definition strength_default : float := 0x1.6666666666666p-1.

(** The row as [db.add(job); db.commit(); db.refresh(job)] leaves it: the
    INSERT leaves out a column whose attribute is [None], and a column with
    a default then gets the default. Of the columns [create_job] may pass
    [None] for, [strength] is the one with a default. *)
Definition inserted (job : Job) : Job :=
  {| prompt := prompt job;
     image_url := image_url job;
     result_url := result_url job;
     status := status job;
     application := application job;
     fal_request_id := fal_request_id job;
     owner_id := owner_id job;
     strength := Some (default strength_default (strength job)) |}.

End models.

(** The [jobs] table. *)
Abbreviation Table := (gmap Z models.Job).

(** The primary key the database gives the next inserted row: integer keys
    are handed out in increasing order ([app/database.py] and the engine
    behind it are not part of the sources). *)
Definition next_id (db : Table) : Z :=
  map_fold (fun k _ acc => Z.max acc (k + 1)) 1 db.

(** ** app/schemas.py *)

Module schemas.

Record BaseResponse (T : Type) := {
  success : bool;
  message : string;
  data : option T
}.
Arguments success {T} _.
Arguments message {T} _.
Arguments data {T} _.

(** [JobOut]: the row with its primary key. *)
Abbreviation JobOut := (Z * models.Job)%type.

End schemas.

(** ** app/main.py *)

Module main.

(** What [create_job] hands to [background_tasks.add_task]: the arguments
    of the [update_job_status] call that runs after the response. *)
Record Task := {
  task_job_id : Z;
  task_request_id : string;
  task_application : option string
}.

(** The multipart file of a request. [filename] is only tested for its
    truth value, so the empty string also stands for a part without a file
    name. [content_type] is the Content-Type header of the part, [None]
    when the part has none. *)
Record UploadFile := {
  filename : string;
  content_type : option string;
  file : bytes
}.

(** What [None.startswith] raises. *)
Definition AttributeError_startswith : Exception :=
  Error "'NoneType' object has no attribute 'startswith'".

(** The [data] dictionary of the status endpoint; [result_url] is [None]
    when the key is left out. *)
Record StatusData := {
  job_id : Z;
  status : string;
  fal_request_id : option string;
  result_url : option string
}.

(** A call of [create_job]: the log, the table, the response or the
    exception that left the function, and the monitor it scheduled. *)
Abbreviation Created :=
  (list event * Table * outcome (schemas.BaseResponse schemas.JobOut)
   * option Task)%type.

Definition max_attempts : nat := 120.

(** [db.query(Job).filter(Job.id == job_id, Job.owner_id == user.id).first()] *)
Definition query_owned (db : Table) (job_id : Z) (user : models.User)
    : option models.Job :=
  match db !! job_id with
  | Some job =>
      if Z.eqb (models.owner_id job) (models.id user) then Some job else None
  | None => None
  end.

Definition not_found {T : Type} : schemas.BaseResponse T :=
  {| schemas.success := false;
     schemas.message := "Job not found";
     schemas.data := None |}.

(** [order_by(Job.id.desc())] *)
Definition id_desc (a b : schemas.JobOut) : Prop := b.1 <= a.1.

#[global] Instance id_desc_dec : RelDecision id_desc.
Proof. intros a b. unfold id_desc. apply _. Defined.

Section main.

Variable FAL_API_KEY : option string.
Variable b64encode : bytes -> string.

(** [Image.open(io.BytesIO(image_bytes)).size]: the width and height, or the
    exception PIL raises on bytes it cannot read. *)
Variable Image_open_size : bytes -> outcome (Z * Z).

(** *** The background monitor *)

(** Lines 77-80: what the monitor writes to the row. *)
Definition record_status (status_result : fal_api.StatusResult)
    (job : models.Job) : models.Job :=
  let job := models.set_status (fal_api.status status_result) job in
  if String.eqb (fal_api.status status_result) "completed"
  then models.set_result_url (fal_api.result_url status_result) job
  else job.

(** Line 85: [status_result["status"] in ["completed", "failed"]] *)
Definition finished (status_result : fal_api.StatusResult) : bool :=
  String.eqb (fal_api.status status_result) "completed"
  || String.eqb (fal_api.status status_result) "failed".

(** One pass of the body of the [while] loop, up to the sleep: the log, the
    table, and whether the loop is left by [break]. An exception inside the
    [try] (no row to read [application] from, the wrapper raising) is
    swallowed by the [except] and the pass changes nothing. *)
Definition monitor_pass (c : fal_client.Client) (job_id : Z)
    (request_id : string) (db : Table) : list event * Table * bool :=
  match db !! job_id with
  | None => ([], db, false)
  | Some job =>
      match fal_api.check_job_status FAL_API_KEY c request_id
              (models.application job) with
      | (log, Raise _) => (log, db, false)
      | (log, Return status_result) =>
          match db !! job_id with
          | Some job =>
              (log, <[job_id := record_status status_result job]> db,
               finished status_result)
          | None => (log, db, false)
          end
      end
  end.

(** The loop [while attempt < max_attempts], by the number of passes it
    still has: [remaining = max_attempts - attempt]. [fal n] is the service
    as it answers during pass [n]. The result is the log, the table and the
    final value of [attempt]. *)
Fixpoint monitor_loop (fal : nat -> fal_client.Client) (job_id : Z)
    (request_id : string) (remaining attempt : nat) (db : Table)
    : list event * Table * nat :=
  match remaining with
  | O => ([], db, attempt)
  | S remaining =>
      match monitor_pass (fal attempt) job_id request_id db with
      | (log, db, true) => (log, db, attempt)
      | (log, db, false) =>
          let '(log', db, attempt) :=
            monitor_loop fal job_id request_id remaining (S attempt) db in
          ((log ++ Sleep 5 :: log')%list, db, attempt)
      end
  end.

Definition update_job_status (fal : nat -> fal_client.Client) (job_id : Z)
    (request_id : string) (db : Table) (application : option string)
    : list event * Table * nat :=
  monitor_loop fal job_id request_id max_attempts 0%nat db.

(** *** Job creation *)

(** Lines 161-195: submission, the insert and the scheduling of the
    monitor, inside the [try]. The response carries the row as the refresh
    after the insert gives it. *)
Definition submit_and_store (c : fal_client.Client) (prompt : string)
    (image_bytes : option bytes) (image_url : option string)
    (strength : float) (db : Table) (user : models.User) : Created :=
  match fal_api.submit_fal_job FAL_API_KEY b64encode c prompt image_bytes with
  | (log, Return fal_response) =>
      let new_job :=
        {| models.prompt := prompt;
           models.image_url := image_url;
           models.result_url := None;
           models.fal_request_id := Some (fal_api.request_id fal_response);
           models.owner_id := models.id user;
           models.application :=
             Some (fal_api.submitted_application fal_response);
           models.status := "pending";
           models.strength :=
             if truthy_bytes image_bytes then Some strength else None |} in
      let new_job := models.inserted new_job in
      let new_job_id := next_id db in
      (log, <[new_job_id := new_job]> db,
       Return {| schemas.success := true;
                 schemas.message := "Job created successfully";
                 schemas.data := Some (new_job_id, new_job) |},
       Some {| task_job_id := new_job_id;
               task_request_id := fal_api.request_id fal_response;
               task_application := models.application new_job |})
  | (log, Raise e) =>
      (log, db,
       Return {| schemas.success := false;
                 schemas.message := "Failed to create job: " +:+ str e;
                 schemas.data := None |},
       None)
  end.

Definition rejected (message : string) (db : Table) : Created :=
  ([], db,
   Return {| schemas.success := false;
             schemas.message := message;
             schemas.data := None |},
   None).

(** Lines 109-159 run outside any [try]: the [AttributeError] of
    [image.content_type.startswith] on a part without a content type leaves
    the function. *)
Definition create_job (c : fal_client.Client) (prompt : string)
    (image : option UploadFile) (strength : float) (db : Table)
    (user : models.User) : Created :=
  match image with
  | Some image =>
      if negb (String.eqb (filename image) "") then
        match content_type image with
        | None => ([], db, Raise AttributeError_startswith, None)
        | Some content_type =>
            if negb (String.prefix "image/" content_type) then
              rejected "File must be an image" db
            else
              let image_bytes := file image in
              if Z.of_nat (length image_bytes) >? 10 * 1024 * 1024 then
                rejected "Image too large (max 10MB)" db
              else
                match Image_open_size image_bytes with
                | Return (width, height) =>
                    if (width <? 64) || (height <? 64) then
                      rejected "Image too small (min 64x64 pixels)" db
                    else if (width >? 4096) || (height >? 4096) then
                      rejected "Image too large (max 4096x4096 pixels)" db
                    else
                      submit_and_store c prompt (Some image_bytes)
                        (Some ("data:image/jpeg;base64,"
                               +:+ b64encode image_bytes))
                        strength db user
                | Raise e =>
                    rejected ("Invalid image file: " +:+ str e) db
                end
        end
      else submit_and_store c prompt None None strength db user
  | None => submit_and_store c prompt None None strength db user
  end.

(** *** The on-demand status check *)

(** Lines 227-236: the update of the row from the wrapper's answer. *)
Definition reconcile (status_result : fal_api.StatusResult)
    (job : models.Job) : models.Job :=
  if String.eqb (fal_api.status status_result) "completed" then
    let job := models.set_status "completed" job in
    let job := models.set_result_url (fal_api.result_url status_result) job in
    match fal_api.result_url status_result with
    | None => models.set_status "failed" job
    | Some _ => job
    end
  else if String.eqb (fal_api.status status_result) "failed" then
    models.set_status "failed" job
  else if String.eqb (fal_api.status status_result) "processing" then
    models.set_status "processing" job
  else job.

(** Lines 245-260: the response, built from the row as it is after the
    refresh and from the wrapper's answer, if there was one. *)
Definition status_response (job_id : Z) (job : models.Job)
    (status_result : option fal_api.StatusResult)
    : schemas.BaseResponse StatusData :=
  {| schemas.success := true;
     schemas.message := "Job status retrieved successfully";
     schemas.data :=
       Some {| job_id := job_id;
               status := models.status job;
               fal_request_id := models.fal_request_id job;
               result_url :=
                 match status_result with
                 | Some status_result => fal_api.result_url status_result
                 | None => None
                 end |} |}.

(** Line 221: [job.status == "completed" and job.fal_request_id] *)
Definition believed_complete (job : models.Job) : bool :=
  String.eqb (models.status job) "completed"
  && truthy (models.fal_request_id job).

Definition check_job_status (c : fal_client.Client) (job_id : Z)
    (db : Table) (user : models.User)
    : list event * Table * schemas.BaseResponse StatusData :=
  match query_owned db job_id user with
  | None => ([], db, not_found)
  | Some job =>
      match models.fal_request_id job with
      | Some request_id =>
          if believed_complete job then
            match fal_api.check_job_status FAL_API_KEY c request_id
                    (models.application job) with
            | (log, Return status_result) =>
                let job := reconcile status_result job in
                (log, <[job_id := job]> db,
                 status_response job_id job (Some status_result))
            | (log, Raise _) => (log, db, status_response job_id job None)
            end
          else ([], db, status_response job_id job None)
      | None => ([], db, status_response job_id job None)
      end
  end.

(** *** Reads *)

Definition list_jobs (page limit : Z) (db : Table) (user : models.User)
    : schemas.BaseResponse (list schemas.JobOut) :=
  let skip := (page - 1) * limit in
  let jobs :=
    take (Z.to_nat limit)
      (drop (Z.to_nat skip)
         (merge_sort id_desc
            (filter (fun row => models.owner_id row.2 = models.id user)
               (map_to_list db)))) in
  {| schemas.success := true;
     schemas.message := "Jobs retrieved successfully";
     schemas.data := Some jobs |}.

Definition get_job (job_id : Z) (db : Table) (user : models.User)
    : schemas.BaseResponse schemas.JobOut :=
  match query_owned db job_id user with
  | None => not_found
  | Some job =>
      {| schemas.success := true;
         schemas.message := "Job retrieved successfully";
         schemas.data := Some (job_id, job) |}
  end.

End main.

End main.

(** ** app/auth.py *)

(** The [users] table. *)
Abbreviation Users := (gmap Z models.User).

(** The primary key the database gives the next inserted user, handed out
    as for jobs. *)
Definition next_user_id (users : Users) : Z :=
  map_fold (fun k _ acc => Z.max acc (k + 1)) 1 users.

(** [db.query(User).filter(User.email == email).first()] *)
Definition first_by_email (users : Users) (email : string)
    : option models.User :=
  snd <$> head (filter (fun row : Z * models.User =>
                          models.email row.2 = email)
                  (map_to_list users)).

Module auth.

(** The [data] dictionary of a successful registration or login. *)
Record Credentials := {
  access_token : string;
  token_type : string;
  user_id : Z;
  email : string
}.

Definition failure (message : string) : schemas.BaseResponse Credentials :=
  {| schemas.success := false;
     schemas.message := message;
     schemas.data := None |}.

Section auth.

(** The helpers of [app/utils.py], which is not part of the sources: each
    is taken as it is called, and may raise. [create_access_token email] is
    [utils.create_access_token(data={"sub": email})]. *)
Variable is_valid_email : string -> outcome bool.
Variable hash_password : string -> outcome string.
Variable verify_password : string -> string -> outcome bool.
Variable create_access_token : string -> outcome string.

(** An exception anywhere in the [try] ends in the [except]: a rollback,
    which undoes nothing that was committed, and a failure response. *)
Definition register (email password : string) (users : Users)
    : Users * schemas.BaseResponse Credentials :=
  match is_valid_email email with
  | Raise e => (users, failure ("Registration failed: " +:+ str e))
  | Return false => (users, failure "Invalid email format")
  | Return true =>
      if (len password <? 6)%nat then
        (users, failure "Password must be at least 6 characters long")
      else
        match first_by_email users email with
        | Some existing_user => (users, failure "Email already registered")
        | None =>
            match hash_password password with
            | Raise e =>
                (users, failure ("Registration failed: " +:+ str e))
            | Return hashed_pw =>
                let new_user :=
                  {| models.id := next_user_id users;
                     models.email := email;
                     models.hashed_password := hashed_pw |} in
                let users := <[models.id new_user := new_user]> users in
                match create_access_token (models.email new_user) with
                | Raise e =>
                    (users, failure ("Registration failed: " +:+ str e))
                | Return access_token =>
                    (users,
                     {| schemas.success := true;
                        schemas.message := "User registered successfully";
                        schemas.data :=
                          Some {| access_token := access_token;
                                  token_type := "bearer";
                                  user_id := models.id new_user;
                                  email := models.email new_user |} |})
                end
            end
        end
  end.

Definition login (username password : string) (users : Users)
    : schemas.BaseResponse Credentials :=
  match first_by_email users username with
  | None => failure "Invalid credentials"
  | Some user =>
      match verify_password password (models.hashed_password user) with
      | Raise e => failure ("Login failed: " +:+ str e)
      | Return false => failure "Invalid credentials"
      | Return true =>
          match create_access_token (models.email user) with
          | Raise e => failure ("Login failed: " +:+ str e)
          | Return access_token =>
              {| schemas.success := true;
                 schemas.message := "Login successful";
                 schemas.data :=
                   Some {| access_token := access_token;
                           token_type := "bearer";
                           user_id := models.id user;
                           email := models.email user |} |}
          end
      end
  end.

End auth.

End auth.

(** ** app/main.py: the current user *)

Module current_user.

Section current_user.

(** [utils.decode_token]: the email in the token, or nothing; it may raise. *)
Variable decode_token : string -> outcome (option string).

Definition get_current_user (token : string) (users : Users)
    : outcome models.User :=
  match decode_token token with
  | Raise e => Raise e
  | Return email =>
      if negb (truthy email) then
        Raise (HTTPException 401 "Invalid or expired token")
      else
        match first_by_email users (default "" email) with
        | None => Raise (HTTPException 401 "User not found")
        | Some user => Return user
        end
  end.

End current_user.

End current_user.

(** ** Sample data *)

Module sample.

(** A service that answers every status query with [st] and every result
    fetch with [res], and accepts every submission as "req-1". *)
Definition service (st : outcome fal_client.Status)
    (res : outcome fal_client.Output) : fal_client.Client :=
  {| fal_client.submit := fun _ _ => Return "req-1";
     fal_client.status := fun _ _ => st;
     fal_client.result := fun _ _ => res |}.

Definition unreachable : fal_client.Client :=
  {| fal_client.submit := fun _ _ => Raise (Error "connection refused");
     fal_client.status := fun _ _ => Raise (Error "connection refused");
     fal_client.result := fun _ _ => Raise (Error "connection refused") |}.

Definition picture : fal_client.Output :=
  {| fal_client.images :=
       Some [ {| fal_client.url := Some "https://fal.media/out.jpeg" |} ];
     fal_client.description := Some "a red bicycle" |}.

(** A result payload without images. *)
Definition no_images : fal_client.Output :=
  {| fal_client.images := Some [];
     fal_client.description := None |}.

Definition alice : models.User :=
  {| models.id := 1; models.email := "alice@example.org";
     models.hashed_password := "$2b$12$a" |}.

Definition bob : models.User :=
  {| models.id := 2; models.email := "bob@example.org";
     models.hashed_password := "$2b$12$b" |}.

(** A text-to-image job of [owner] in the given state, as [create_job]
    stores it: without an image, and with the default strength. *)
Definition job (owner : Z) (status : string) (result_url : option string)
    : models.Job :=
  {| models.prompt := "a red bicycle";
     models.image_url := None;
     models.result_url := result_url;
     models.status := status;
     models.application := Some "fal-ai/nano-banana";
     models.fal_request_id := Some "req-1";
     models.owner_id := owner;
     models.strength := Some models.strength_default |}.

Definition b64 (b : bytes) : string := "".

Definition unreadable (b : bytes) : outcome (Z * Z) :=
  Raise (Error "cannot identify image file").

Definition sized (width height : Z) (b : bytes) : outcome (Z * Z) :=
  Return (width, height).

End sample.

(** Stand-ins for the helpers of [app/utils.py]. *)
Module sample_utils.

Definition is_valid_email (email : string) : outcome bool :=
  Return (bool_decide (is_Some (String.index 0 "@" email))).

Definition hash_password (password : string) : outcome string :=
  Return ("hashed:" +:+ password).

Definition verify_password (password hashed : string) : outcome bool :=
  Return (String.eqb hashed ("hashed:" +:+ password)).

Definition create_access_token (email : string) : outcome string :=
  Return ("token:" +:+ email).

Definition decode_token (token : string) : outcome (option string) :=
  Return (if String.prefix "token:" token
          then Some (String.substring 6 (String.length token - 6) token)
          else None).

(** A token service that is down. *)
Definition no_tokens (email : string) : outcome string :=
  Raise (Error "signing key missing").

Definition carol : models.User :=
  {| models.id := 4; models.email := "carol@example.org";
     models.hashed_password := "hashed:s3cret!" |}.

End sample_utils.

(** *** Users *)

(** A byte that starts a character of a UTF-8 string: 0xxxxxxx, or a lead
    byte 11xxxxxx. *)
Definition starts_character (a : Ascii.ascii) : bool :=
  (Ascii.nat_of_ascii a <? 128)%nat || (192 <=? Ascii.nat_of_ascii a)%nat.

(** The number of characters of a string. *)
Definition characters (s : string) : nat :=
  length (List.filter starts_character (String.list_ascii_of_string s)).

(** No two rows of [users] carry the same email. *)
Definition unique_emails (users : Users) : Prop :=
  forall i j u v,
    users !! i = Some u -> users !! j = Some v ->
    models.email u = models.email v -> i = j.

(** The row [register] builds for [email]: the next key, the email, the
    hash. *)
Definition registered (email hashed : string) (users : Users)
    : models.User :=
  {| models.id := next_user_id users;
     models.email := email;
     models.hashed_password := hashed |}.

(** ** What a pass of the monitor is told *)

(** The wrapper's answer during pass [n] of a monitor that polls
    [request_id] under [application]. *)
Definition report (FAL_API_KEY : option string)
    (fal : nat -> fal_client.Client) (request_id : string)
    (application : option string) (n : nat) : outcome fal_api.StatusResult :=
  (fal_api.check_job_status FAL_API_KEY (fal n) request_id application).2.

(** The answer is a dictionary whose status is "completed" or "failed". *)
Definition terminal (answer : outcome fal_api.StatusResult) : bool :=
  match answer with
  | Return status_result =>
      bool_decide (fal_api.status status_result = "completed"
                   \/ fal_api.status status_result = "failed")
  | Raise _ => false
  end.

(** Row [a] has a larger primary key than row [b]: it was inserted
    later. *)
Definition newer (a b : schemas.JobOut) : Prop := b.1 < a.1.

(** *** Uploads *)

(** The file of a request that [create_job] looks at: one with a file
    name (line 113). *)
Definition attached (image : option main.UploadFile)
    : option main.UploadFile :=
  match image with
  | Some image =>
      if negb (String.eqb (main.filename image) "") then Some image else None
  | None => None
  end.

(** The upload is an image by its content type, holds at most 10 MB, and
    PIL reads it as between 64x64 and 4096x4096 pixels. An upload without
    a content type is not an image. *)
Definition acceptable (Image_open_size : bytes -> outcome (Z * Z))
    (image : main.UploadFile) : bool :=
  match main.content_type image with
  | Some content_type => String.prefix "image/" content_type
  | None => false
  end
  && (Z.of_nat (length (main.file image)) <=? 10 * 1024 * 1024)
  && match Image_open_size (main.file image) with
     | Return (width, height) =>
         (64 <=? width) && (width <=? 4096)
         && (64 <=? height) && (height <=? 4096)
     | Raise _ => false
     end.

(** The response of a call of [create_job], if it returned one. *)
Definition response_of (r : main.Created)
    : option (schemas.BaseResponse schemas.JobOut) :=
  match r.1.2 with
  | Return response => Some response
  | Raise _ => None
  end.

(** The call returned a response that says [success]. *)
Definition answered (success : bool) (r : main.Created) : Prop :=
  schemas.success <$> response_of r = Some success.

(** The call left the table as it was and scheduled no monitor. *)
Definition nothing_stored (db : Table) (r : main.Created) : Prop :=
  r.1.1.2 = db /\ r.2 = None.

(** What a call of [create_job] that ends in a failure response leaves
    behind: nothing, and a response with a message and no data. *)
Definition nothing_created (db : Table) (r : main.Created) : Prop :=
  forall response,
    r.1.2 = Return response ->
    schemas.success response = false ->
    nothing_stored db r /\ schemas.data response = None
    /\ schemas.message response <> "".

(** *** Rows *)

(** Two rows that differ at most in [status] and [result_url]. *)
Definition same_but_outcome (a b : models.Job) : Prop :=
  models.prompt a = models.prompt b
  /\ models.image_url a = models.image_url b
  /\ models.application a = models.application b
  /\ models.fal_request_id a = models.fal_request_id b
  /\ models.owner_id a = models.owner_id b
  /\ models.strength a = models.strength b.

(** Every row that says "completed" has a result url. *)
Definition completed_has_result (db : Table) : Prop :=
  forall k job,
    db !! k = Some job ->
    models.status job = "completed" ->
    is_Some (models.result_url job).

(** The url the row holds when a monitor that started on [job] ends with
    [attempt = n], out of a budget that ends at [limit]: the url of the
    answer of pass [n] if the monitor ended early on "completed", the url it
    started with otherwise. *)
Definition final_result_url (FAL_API_KEY : option string)
    (fal : nat -> fal_client.Client) (request_id : string)
    (job : models.Job) (n limit : nat) : option string :=
  if (n <? limit)%nat then
    match report FAL_API_KEY fal request_id (models.application job) n with
    | Return status_result =>
        if String.eqb (fal_api.status status_result) "completed"
        then fal_api.result_url status_result
        else models.result_url job
    | Raise _ => models.result_url job
    end
  else models.result_url job.

(** The rows of [user], newest first: the list the pages are cut from. *)
Definition owned_rows (db : Table) (user : models.User)
    : list schemas.JobOut :=
  merge_sort main.id_desc
    (filter (fun row : schemas.JobOut =>
               models.owner_id row.2 = models.id user)
       (map_to_list db)).

(** [row] is on page [page] of the list of [user], cut in pages of
    [limit]. *)
Definition listed (page limit : Z) (db : Table) (user : models.User)
    (row : schemas.JobOut) : Prop :=
  exists rows,
    schemas.data (main.list_jobs page limit db user) = Some rows
    /\ row ∈ rows.

(** The answers to a status query after which the wrapper fetches the
    result: Completed, and a failure of the query. *)
Definition needs_result (answer : outcome fal_client.Status) : bool :=
  match answer with
  | Return fal_client.Completed | Raise _ => true
  | Return _ => false
  end.

(** ** The poll wrapper, [fal_api.check_job_status] *)

Section poll.

Variable FAL_API_KEY : option string.

Lemma check_job_status_unconfigured c request_id application :
  truthy FAL_API_KEY = false ->
  fal_api.check_job_status FAL_API_KEY c request_id application
  = ([], Raise (HTTPException 500 "FAL API key not configured")).
Proof. intros H. unfold fal_api.check_job_status. by rewrite H. Qed.

(** With the key set the wrapper returns a dictionary, and its log starts
    with the one status query. *)
Lemma check_job_status_returns c request_id application :
  truthy FAL_API_KEY = true ->
  exists log status_result,
    fal_api.check_job_status FAL_API_KEY c request_id application
    = (StatusQuery application request_id :: log, Return status_result)
    /\ Forall (fun e => is_status_query e = false) log.
Proof.
  intros H. unfold fal_api.check_job_status. rewrite H. simpl.
  destruct (fal_client.status c application request_id) as [[]|];
    destruct (fal_client.result c application request_id);
    eexists _, _; split; try reflexivity; repeat constructor.
Qed.

(** The status a completed query ends in: what the result fetch allows. *)
Lemma check_job_status_completed c request_id application :
  truthy FAL_API_KEY = true ->
  fal_client.status c application request_id = Return fal_client.Completed ->
  exists status_result,
    fal_api.check_job_status FAL_API_KEY c request_id application
    = ([StatusQuery application request_id;
        ResultFetch application request_id], Return status_result)
    /\ match fal_client.result c application request_id with
       | Return result =>
           fal_api.status status_result = "completed"
           /\ fal_api.result_url status_result
              = fal_api.first_image_url result
       | Raise _ =>
           fal_api.status status_result = "failed"
           /\ fal_api.result_url status_result = None
       end.
Proof.
  intros H Hst. unfold fal_api.check_job_status. rewrite H, Hst. simpl.
  destruct (fal_client.result c application request_id);
    eexists; split; try reflexivity; by split.
Qed.

(** The fallback: a failed status query is followed by a result fetch. *)
Lemma check_job_status_fallback c request_id application e :
  truthy FAL_API_KEY = true ->
  fal_client.status c application request_id = Raise e ->
  exists status_result,
    fal_api.check_job_status FAL_API_KEY c request_id application
    = ([StatusQuery application request_id;
        ResultFetch application request_id], Return status_result)
    /\ match fal_client.result c application request_id with
       | Return result =>
           fal_api.status status_result = "completed"
           /\ fal_api.result_url status_result
              = fal_api.first_image_url result
       | Raise _ =>
           fal_api.status status_result = "pending"
           /\ fal_api.result_url status_result = None
       end.
Proof.
  intros H Hst. unfold fal_api.check_job_status. rewrite H, Hst. simpl.
  destruct (fal_client.result c application request_id);
    eexists; split; try reflexivity; by split.
Qed.

End poll.

(** C2, as amended. With the key configured the poll wrapper raises
    nothing: it returns a dictionary. When the status query fails it goes
    on to fetch the result, and reports "completed" with the url taken from
    the fetched result when the fetch succeeds and "pending", which is
    neither "completed" nor "failed", when the fetch fails too. *)
Theorem poll_never_raises_when_configured
    (FAL_API_KEY : option string) (c : fal_client.Client)
    (request_id : string) (application : option string) :
  truthy FAL_API_KEY = true ->
  exists log status_result,
    fal_api.check_job_status FAL_API_KEY c request_id application
    = (log, Return status_result)
    /\ forall e,
         fal_client.status c application request_id = Raise e ->
         log = [StatusQuery application request_id;
                ResultFetch application request_id]
         /\ match fal_client.result c application request_id with
            | Return result =>
                fal_api.status status_result = "completed"
                /\ fal_api.result_url status_result
                   = fal_api.first_image_url result
            | Raise _ =>
                fal_api.status status_result = "pending"
                /\ String.eqb (fal_api.status status_result) "completed"
                   = false
                /\ String.eqb (fal_api.status status_result) "failed"
                   = false
            end.
Proof.
  intros Hkey.
  destruct (fal_client.status c application request_id) as [st|e0] eqn:Hst.
  - destruct (check_job_status_returns FAL_API_KEY c request_id application
                Hkey) as (log & status_result & Heq & _).
    exists (StatusQuery application request_id :: log), status_result.
    split; [exact Heq | intros e He; discriminate He].
  - destruct (check_job_status_fallback FAL_API_KEY c request_id application
                e0 Hkey Hst) as (status_result & Heq & Hres).
    eexists _, status_result. split; [exact Heq |].
    intros e _. split; [reflexivity |].
    destruct (fal_client.result c application request_id).
    + exact Hres.
    + destruct Hres as [Hs _]. rewrite Hs. by repeat split.
Qed.

Lemma poll_never_raises_when_configured_witness :
  truthy (Some "fal-key") = true
  /\ exists log status_result,
       fal_api.check_job_status (Some "fal-key") sample.unreachable "req-1"
         (Some "fal-ai/nano-banana")
       = (log, Return status_result)
       /\ forall e,
            fal_client.status sample.unreachable (Some "fal-ai/nano-banana")
              "req-1" = Raise e ->
            log = [StatusQuery (Some "fal-ai/nano-banana") "req-1";
                   ResultFetch (Some "fal-ai/nano-banana") "req-1"]
            /\ match fal_client.result sample.unreachable
                       (Some "fal-ai/nano-banana") "req-1" with
               | Return result =>
                   fal_api.status status_result = "completed"
                   /\ fal_api.result_url status_result
                      = fal_api.first_image_url result
               | Raise _ =>
                   fal_api.status status_result = "pending"
                   /\ String.eqb (fal_api.status status_result) "completed"
                      = false
                   /\ String.eqb (fal_api.status status_result) "failed"
                      = false
               end.
Proof.
  split; [reflexivity |].
  apply (poll_never_raises_when_configured (Some "fal-key")
           sample.unreachable "req-1" (Some "fal-ai/nano-banana")).
  reflexivity.
Defined.

(** C2 as stated fails twice over: without the key the wrapper raises, and
    with the key and both requests failing the status it reports is
    "pending", not "unknown". *)
Lemma poll_claim_counterexample :
  fal_api.check_job_status None sample.unreachable "req-1"
    (Some "fal-ai/nano-banana")
  = ([], Raise (HTTPException 500 "FAL API key not configured"))
  /\ exists status_result,
       fal_api.check_job_status (Some "fal-key") sample.unreachable "req-1"
         (Some "fal-ai/nano-banana")
       = ([StatusQuery (Some "fal-ai/nano-banana") "req-1";
           ResultFetch (Some "fal-ai/nano-banana") "req-1"],
          Return status_result)
       /\ fal_api.status status_result = "pending"
       /\ String.eqb (fal_api.status status_result) "unknown" = false.
Proof.
  split; [reflexivity |].
  eexists. split; [reflexivity |]. by split.
Qed.

(** ** One pass of the monitor *)

Section monitor_pass.

Variable FAL_API_KEY : option string.

Lemma record_status_status status_result job :
  models.status (main.record_status status_result job)
  = fal_api.status status_result.
Proof.
  unfold main.record_status.
  by destruct (String.eqb (fal_api.status status_result) "completed").
Qed.

Lemma record_status_application status_result job :
  models.application (main.record_status status_result job)
  = models.application job.
Proof.
  unfold main.record_status.
  by destruct (String.eqb (fal_api.status status_result) "completed").
Qed.

(** A status other than "completed" leaves every other column alone. *)
Lemma record_status_not_completed status_result job :
  String.eqb (fal_api.status status_result) "completed" = false ->
  main.record_status status_result job
  = models.set_status (fal_api.status status_result) job.
Proof. intros H. unfold main.record_status. by rewrite H. Qed.

(** The loop's [break] test, in words: the status is one of the two
    strings of line 85. *)
Lemma finished_true status_result :
  main.finished status_result = true <->
  fal_api.status status_result = "completed"
  \/ fal_api.status status_result = "failed".
Proof.
  unfold main.finished. rewrite orb_true_iff, !String.eqb_eq. done.
Qed.

Lemma finished_false status_result :
  main.finished status_result = false <->
  fal_api.status status_result <> "completed"
  /\ fal_api.status status_result <> "failed".
Proof.
  unfold main.finished. rewrite orb_false_iff, !String.eqb_neq. done.
Qed.

Lemma terminal_Return status_result :
  terminal (Return status_result) = main.finished status_result.
Proof.
  destruct (main.finished status_result) eqn:H; simpl.
  - apply bool_decide_eq_true. by apply finished_true.
  - apply bool_decide_eq_false. apply finished_false in H. tauto.
Qed.

Lemma monitor_pass_missing c job_id request_id (db : Table) :
  db !! job_id = None ->
  main.monitor_pass FAL_API_KEY c job_id request_id db = ([], db, false).
Proof. intros H. unfold main.monitor_pass. by rewrite H. Qed.

Lemma monitor_pass_raised c job_id request_id (db : Table) job log e :
  db !! job_id = Some job ->
  fal_api.check_job_status FAL_API_KEY c request_id (models.application job)
  = (log, Raise e) ->
  main.monitor_pass FAL_API_KEY c job_id request_id db = (log, db, false).
Proof. intros H Hc. unfold main.monitor_pass. by rewrite H, Hc. Qed.

Lemma monitor_pass_stored c job_id request_id (db : Table) job log
    status_result :
  db !! job_id = Some job ->
  fal_api.check_job_status FAL_API_KEY c request_id (models.application job)
  = (log, Return status_result) ->
  main.monitor_pass FAL_API_KEY c job_id request_id db
  = (log, <[job_id := main.record_status status_result job]> db,
     main.finished status_result).
Proof. intros H Hc. unfold main.monitor_pass. by rewrite H, Hc. Qed.

End monitor_pass.

(** C10. When the key is set and both the status query and the fallback
    result fetch fail, the wrapper answers "pending". The monitor's pass
    stores that answer: the row's status is "pending" afterwards, whatever
    it was, while its result url, its other columns and the other rows are
    as before; the pass does not leave the loop. *)
Theorem failed_poll_overwrites_status_with_pending
    (FAL_API_KEY : option string) (c : fal_client.Client) (job_id : Z)
    (request_id : string) (db : Table) (job : models.Job)
    (e e' : Exception) :
  truthy FAL_API_KEY = true ->
  db !! job_id = Some job ->
  fal_client.status c (models.application job) request_id = Raise e ->
  fal_client.result c (models.application job) request_id = Raise e' ->
  (exists status_result,
     fal_api.check_job_status FAL_API_KEY c request_id
       (models.application job)
     = ([StatusQuery (models.application job) request_id;
         ResultFetch (models.application job) request_id],
        Return status_result)
     /\ fal_api.status status_result = "pending")
  /\ exists db' stored,
       main.monitor_pass FAL_API_KEY c job_id request_id db
       = ([StatusQuery (models.application job) request_id;
           ResultFetch (models.application job) request_id],
          db', false)
       /\ db' !! job_id = Some stored
       /\ models.status stored = "pending"
       /\ models.result_url stored = models.result_url job
       /\ same_but_outcome job stored
       /\ forall k, k <> job_id -> db' !! k = db !! k.
Proof.
  intros Hkey Hjob Hst Hres.
  destruct (check_job_status_fallback FAL_API_KEY c request_id
              (models.application job) e Hkey Hst)
    as (status_result & Heq & Hshape).
  rewrite Hres in Hshape. destruct Hshape as [Hpending _].
  split; [by exists status_result |].
  exists (<[job_id := main.record_status status_result job]> db),
    (main.record_status status_result job).
  split.
  { rewrite (monitor_pass_stored FAL_API_KEY c job_id request_id db job _
               status_result Hjob Heq).
    unfold main.finished. by rewrite Hpending. }
  split; [apply lookup_insert_eq |].
  split; [by rewrite record_status_status |].
  unfold main.record_status. rewrite Hpending. simpl.
  split; [done |]. split; [done |].
  intros k Hk. by rewrite lookup_insert_ne.
Qed.

(** The theorem at a row that says "processing" while the service cannot
    be reached: the pass leaves it "pending". *)
Lemma failed_poll_overwrites_status_with_pending_witness :
  models.status
  <$> ({[ 7 := sample.job 1 "processing" None ]} : Table) !! 7
  = Some "processing"
  /\ exists db' stored,
       main.monitor_pass (Some "fal-key") sample.unreachable 7 "req-1"
         {[ 7 := sample.job 1 "processing" None ]}
       = ([StatusQuery (Some "fal-ai/nano-banana") "req-1";
           ResultFetch (Some "fal-ai/nano-banana") "req-1"],
          db', false)
       /\ db' !! 7 = Some stored
       /\ models.status stored = "pending".
Proof.
  split; [reflexivity |].
  destruct (failed_poll_overwrites_status_with_pending (Some "fal-key")
              sample.unreachable 7 "req-1"
              {[ 7 := sample.job 1 "processing" None ]}
              (sample.job 1 "processing" None)
              (Error "connection refused") (Error "connection refused"))
    as (_ & db' & stored & Hpass & Hstored & Hstatus & _);
    [reflexivity | reflexivity | reflexivity | reflexivity |].
  exists db', stored. split; [exact Hpass |]. split; [exact Hstored |].
  exact Hstatus.
Defined.

(** ** The on-demand status check *)

Section on_demand.

Variable FAL_API_KEY : option string.

Lemma query_owned_Some (db : Table) job_id user job :
  main.query_owned db job_id user = Some job <->
  db !! job_id = Some job /\ models.owner_id job = models.id user.
Proof.
  unfold main.query_owned. destruct (db !! job_id) as [j|].
  - destruct (Z.eqb_spec (models.owner_id j) (models.id user)) as [Heq|Hne];
      split.
    + by intros [= ->].
    + by intros [[= ->] _].
    + discriminate.
    + intros [[= ->] Heq]. contradiction.
  - split; [discriminate | intros [Hj _]; discriminate Hj].
Qed.

Lemma query_owned_None (db : Table) job_id user :
  main.query_owned db job_id user = None <->
  forall job, db !! job_id = Some job ->
              models.owner_id job <> models.id user.
Proof.
  unfold main.query_owned. destruct (db !! job_id) as [j|].
  - destruct (Z.eqb_spec (models.owner_id j) (models.id user)) as [Heq|Hne];
      split.
    + discriminate.
    + intros Hall. by destruct (Hall j eq_refl).
    + by intros _ job [= <-].
    + done.
  - split; [intros _ job Hj; discriminate Hj | done].
Qed.

Lemma believed_complete_request_id job :
  main.believed_complete job = true ->
  models.status job = "completed"
  /\ exists request_id, models.fal_request_id job = Some request_id
                        /\ request_id <> "".
Proof.
  unfold main.believed_complete, truthy. intros [H1 H2]%andb_prop.
  apply String.eqb_eq in H1. split; [done |].
  destruct (models.fal_request_id job) as [r|]; [| done].
  exists r. split; [done |]. intros ->. done.
Qed.

Lemma on_demand_not_owned c (db : Table) job_id user :
  main.query_owned db job_id user = None ->
  main.check_job_status FAL_API_KEY c job_id db user
  = ([], db, main.not_found).
Proof. intros H. unfold main.check_job_status. by rewrite H. Qed.

Lemma on_demand_skips c (db : Table) job_id user job :
  main.query_owned db job_id user = Some job ->
  main.believed_complete job = false ->
  main.check_job_status FAL_API_KEY c job_id db user
  = ([], db, main.status_response job_id job None).
Proof.
  intros H Hb. unfold main.check_job_status. rewrite H, Hb.
  by destruct (models.fal_request_id job).
Qed.

Lemma on_demand_raised c (db : Table) job_id user job request_id log e :
  main.query_owned db job_id user = Some job ->
  main.believed_complete job = true ->
  models.fal_request_id job = Some request_id ->
  fal_api.check_job_status FAL_API_KEY c request_id (models.application job)
  = (log, Raise e) ->
  main.check_job_status FAL_API_KEY c job_id db user
  = (log, db, main.status_response job_id job None).
Proof.
  intros H Hb Hr Hc. unfold main.check_job_status. by rewrite H, Hr, Hb, Hc.
Qed.

Lemma on_demand_reconciles c (db : Table) job_id user job request_id log
    status_result :
  main.query_owned db job_id user = Some job ->
  main.believed_complete job = true ->
  models.fal_request_id job = Some request_id ->
  fal_api.check_job_status FAL_API_KEY c request_id (models.application job)
  = (log, Return status_result) ->
  main.check_job_status FAL_API_KEY c job_id db user
  = (log, <[job_id := main.reconcile status_result job]> db,
     main.status_response job_id (main.reconcile status_result job)
       (Some status_result)).
Proof.
  intros H Hb Hr Hc. unfold main.check_job_status. by rewrite H, Hr, Hb, Hc.
Qed.

(** The rule of lines 227-232: a "completed" answer without a url is
    stored as "failed". *)
Lemma reconcile_completed_without_result status_result job :
  fal_api.status status_result = "completed" ->
  fal_api.result_url status_result = None ->
  models.status (main.reconcile status_result job) = "failed".
Proof. intros Hs Hu. unfold main.reconcile. by rewrite Hs, Hu. Qed.

Lemma reconcile_failed status_result job :
  fal_api.status status_result = "failed" ->
  main.reconcile status_result job = models.set_status "failed" job.
Proof. intros Hs. unfold main.reconcile. by rewrite Hs. Qed.

(** The columns [reconcile] never writes. *)
Lemma reconcile_frame status_result job :
  models.fal_request_id (main.reconcile status_result job)
  = models.fal_request_id job
  /\ models.application (main.reconcile status_result job)
     = models.application job
  /\ models.owner_id (main.reconcile status_result job)
     = models.owner_id job.
Proof.
  unfold main.reconcile.
  repeat (case_match; simpl); done.
Qed.

End on_demand.

(** C7. The service answers the status query with Completed and the result
    fetch raises. Then the pass of the monitor stores "failed" and leaves
    the loop, and the on-demand check of a row believed complete with that
    request id stores and returns "failed" as well. *)
Theorem completed_without_result_is_recorded_failed
    (FAL_API_KEY : option string) (c : fal_client.Client) (job_id : Z)
    (request_id : string) (db : Table) (job : models.Job) (e : Exception) :
  truthy FAL_API_KEY = true ->
  db !! job_id = Some job ->
  fal_client.status c (models.application job) request_id
  = Return fal_client.Completed ->
  fal_client.result c (models.application job) request_id = Raise e ->
  (exists log db',
     main.monitor_pass FAL_API_KEY c job_id request_id db = (log, db', true)
     /\ models.status <$> db' !! job_id = Some "failed")
  /\ forall user,
       models.owner_id job = models.id user ->
       main.believed_complete job = true ->
       models.fal_request_id job = Some request_id ->
       exists log db' response,
         main.check_job_status FAL_API_KEY c job_id db user
         = (log, db', response)
         /\ models.status <$> db' !! job_id = Some "failed"
         /\ main.status <$> schemas.data response = Some "failed".
Proof.
  intros Hkey Hjob Hst Hres.
  destruct (check_job_status_completed FAL_API_KEY c request_id
              (models.application job) Hkey Hst)
    as (status_result & Heq & Hshape).
  rewrite Hres in Hshape. destruct Hshape as [Hfailed _].
  split.
  - eexists _, _. split.
    + rewrite (monitor_pass_stored FAL_API_KEY c job_id request_id db job _
                 status_result Hjob Heq).
      unfold main.finished. rewrite Hfailed. reflexivity.
    + rewrite lookup_insert_eq. simpl.
      by rewrite record_status_status, Hfailed.
  - intros user Howner Hbelieved Hrid.
    assert (main.query_owned db job_id user = Some job) as Hq
      by by apply query_owned_Some.
    eexists _, _, _. split.
    + exact (on_demand_reconciles FAL_API_KEY c db job_id user job request_id
               _ status_result Hq Hbelieved Hrid Heq).
    + rewrite lookup_insert_eq, (reconcile_failed _ _ Hfailed). by split.
Qed.

Lemma completed_without_result_is_recorded_failed_witness :
  (exists log db',
     main.monitor_pass (Some "fal-key")
       (sample.service (Return fal_client.Completed)
          (Raise (Error "result expired")))
       7 "req-1" {[ 7 := sample.job 1 "completed" None ]}
     = (log, db', true)
     /\ models.status <$> db' !! 7 = Some "failed")
  /\ exists log db' response,
       main.check_job_status (Some "fal-key")
         (sample.service (Return fal_client.Completed)
            (Raise (Error "result expired")))
         7 {[ 7 := sample.job 1 "completed" None ]} sample.alice
       = (log, db', response)
       /\ models.status <$> db' !! 7 = Some "failed"
       /\ main.status <$> schemas.data response = Some "failed".
Proof.
  destruct (completed_without_result_is_recorded_failed (Some "fal-key")
              (sample.service (Return fal_client.Completed)
                 (Raise (Error "result expired")))
              7 "req-1" {[ 7 := sample.job 1 "completed" None ]}
              (sample.job 1 "completed" None) (Error "result expired"))
    as [Hmonitor Hcheck]; [reflexivity | reflexivity | reflexivity
                          | reflexivity |].
  split; [exact Hmonitor |].
  apply (Hcheck sample.alice); reflexivity.
Defined.

(** C6. A job of another user is not returned by [get_job] nor by the
    status check: the requester gets "Job not found", the check contacts
    nothing and changes nothing, and both answers are the ones an id that
    is in no row gets. *)
Theorem owner_scoped_reads_hide_foreign_jobs
    (FAL_API_KEY : option string) (c : fal_client.Client) (db : Table)
    (job_id : Z) (job : models.Job) (user : models.User) :
  db !! job_id = Some job ->
  models.owner_id job <> models.id user ->
  main.get_job job_id db user = main.not_found
  /\ schemas.success (main.get_job job_id db user) = false
  /\ schemas.data (main.get_job job_id db user) = None
  /\ main.check_job_status FAL_API_KEY c job_id db user
     = ([], db, main.not_found)
  /\ forall missing,
       db !! missing = None ->
       main.get_job missing db user = main.get_job job_id db user
       /\ main.check_job_status FAL_API_KEY c missing db user
          = main.check_job_status FAL_API_KEY c job_id db user.
Proof.
  intros Hjob Howner.
  assert (main.query_owned db job_id user = None) as Hq.
  { apply query_owned_None. intros j Hj. congruence. }
  assert (main.get_job job_id db user = main.not_found) as Hget.
  { unfold main.get_job. by rewrite Hq. }
  rewrite Hget, (on_demand_not_owned FAL_API_KEY c db job_id user Hq).
  do 4 (split; [reflexivity |]).
  intros missing Hmissing. split.
  - unfold main.get_job, main.query_owned. by rewrite Hmissing.
  - apply on_demand_not_owned, query_owned_None. intros j Hj. congruence.
Qed.

Lemma owner_scoped_reads_hide_foreign_jobs_witness :
  main.get_job 7 {[ 7 := sample.job 1 "completed" None ]} sample.bob
  = main.not_found
  /\ schemas.success
       (main.get_job 7 {[ 7 := sample.job 1 "completed" None ]} sample.bob)
     = false
  /\ schemas.data
       (main.get_job 7 {[ 7 := sample.job 1 "completed" None ]} sample.bob)
     = None
  /\ main.check_job_status (Some "fal-key")
       (sample.service (Return fal_client.Completed) (Return sample.picture))
       7 {[ 7 := sample.job 1 "completed" None ]} sample.bob
     = ([], {[ 7 := sample.job 1 "completed" None ]}, main.not_found)
  /\ forall missing,
       ({[ 7 := sample.job 1 "completed" None ]} : Table) !! missing = None ->
       main.get_job missing {[ 7 := sample.job 1 "completed" None ]}
         sample.bob
       = main.get_job 7 {[ 7 := sample.job 1 "completed" None ]} sample.bob
       /\ main.check_job_status (Some "fal-key")
            (sample.service (Return fal_client.Completed)
               (Return sample.picture))
            missing {[ 7 := sample.job 1 "completed" None ]} sample.bob
          = main.check_job_status (Some "fal-key")
              (sample.service (Return fal_client.Completed)
                 (Return sample.picture))
              7 {[ 7 := sample.job 1 "completed" None ]} sample.bob.
Proof.
  apply (owner_scoped_reads_hide_foreign_jobs (Some "fal-key")
           (sample.service (Return fal_client.Completed)
              (Return sample.picture))
           {[ 7 := sample.job 1 "completed" None ]} 7
           (sample.job 1 "completed" None) sample.bob).
  - reflexivity.
  - simpl. lia.
Defined.

Section on_demand_twice.

Variable FAL_API_KEY : option string.

Lemma status_queries_one application request_id log :
  Forall (fun e => is_status_query e = false) log ->
  status_queries (StatusQuery application request_id :: log) = 1%nat.
Proof.
  intros H. unfold status_queries. simpl. f_equal.
  induction H as [|e l He _ IH]; [done |]. simpl. by rewrite He.
Qed.

(** Only a "completed" answer of the wrapper carries a url. *)
Lemma check_job_status_url c request_id application log status_result :
  fal_api.check_job_status FAL_API_KEY c request_id application
  = (log, Return status_result) ->
  String.eqb (fal_api.status status_result) "completed" = false ->
  fal_api.result_url status_result = None.
Proof.
  unfold fal_api.check_job_status.
  destruct (negb (truthy FAL_API_KEY)); [discriminate |].
  destruct (fal_client.status c application request_id) as [[]|];
    destruct (fal_client.result c application request_id);
    intros [= <- <-]; simpl; done.
Qed.

Lemma believed_complete_reconcile status_result job :
  main.believed_complete job = true ->
  main.believed_complete (main.reconcile status_result job)
  = String.eqb (models.status (main.reconcile status_result job))
      "completed".
Proof.
  intros [_ Hr]%andb_prop. unfold main.believed_complete.
  destruct (reconcile_frame status_result job) as (-> & _ & _).
  rewrite Hr. apply andb_true_r.
Qed.

(** Applying an answer a second time to a row it left "completed" changes
    nothing. *)
Lemma reconcile_again status_result job :
  models.status (main.reconcile status_result job) = "completed" ->
  main.reconcile status_result (main.reconcile status_result job)
  = main.reconcile status_result job.
Proof.
  unfold main.reconcile.
  destruct (String.eqb (fal_api.status status_result) "completed").
  - destruct (fal_api.result_url status_result); [done | discriminate].
  - destruct (String.eqb (fal_api.status status_result) "failed");
      [discriminate |].
    destruct (String.eqb (fal_api.status status_result) "processing");
      [discriminate | done].
Qed.

(** A row the answer moved away from "completed" got no url from it. *)
Lemma reconcile_left_completed c request_id application log status_result
    job :
  fal_api.check_job_status FAL_API_KEY c request_id application
  = (log, Return status_result) ->
  String.eqb (models.status (main.reconcile status_result job)) "completed"
  = false ->
  fal_api.result_url status_result = None.
Proof.
  intros Hc. unfold main.reconcile.
  destruct (String.eqb (fal_api.status status_result) "completed") eqn:Hs.
  - destruct (fal_api.result_url status_result); [discriminate | done].
  - intros _. exact (check_job_status_url _ _ _ _ _ Hc Hs).
Qed.

End on_demand_twice.

Lemma same_but_outcome_refl job : same_but_outcome job job.
Proof. by repeat split. Qed.

Lemma same_but_outcome_trans a b c :
  same_but_outcome a b -> same_but_outcome b c -> same_but_outcome a c.
Proof. unfold same_but_outcome. intuition congruence. Qed.

(** What lines 227-236 leave in the row, answer by answer. *)
Lemma reconcile_cases status_result job :
  let stored := main.reconcile status_result job in
  same_but_outcome job stored
  /\ (fal_api.status status_result = "completed" ->
      models.result_url stored = fal_api.result_url status_result
      /\ models.status stored
         = match fal_api.result_url status_result with
           | Some _ => "completed"
           | None => "failed"
           end)
  /\ (fal_api.status status_result = "failed" ->
      models.status stored = "failed"
      /\ models.result_url stored = models.result_url job)
  /\ (fal_api.status status_result = "processing" ->
      models.status stored = "processing"
      /\ models.result_url stored = models.result_url job)
  /\ (fal_api.status status_result <> "completed" ->
      fal_api.status status_result <> "failed" ->
      fal_api.status status_result <> "processing" ->
      stored = job).
Proof.
  unfold main.reconcile.
  destruct (String.eqb_spec (fal_api.status status_result) "completed")
    as [Hc|Hc].
  { rewrite Hc. destruct (fal_api.result_url status_result);
      repeat split; try done. }
  destruct (String.eqb_spec (fal_api.status status_result) "failed")
    as [Hf|Hf].
  { rewrite Hf. repeat split; try done. }
  destruct (String.eqb_spec (fal_api.status status_result) "processing")
    as [Hp|Hp].
  { rewrite Hp. repeat split; try done. }
  repeat split; try done.
Qed.

(** Line 221, in words. *)
Lemma believed_complete_iff job :
  main.believed_complete job = true <->
  models.status job = "completed"
  /\ exists request_id,
       models.fal_request_id job = Some request_id /\ request_id <> "".
Proof.
  split; [apply believed_complete_request_id |].
  intros (Hstatus & request_id & Hrid & Hne).
  unfold main.believed_complete, truthy. rewrite Hstatus, Hrid. simpl.
  by apply String.eqb_neq in Hne as ->.
Qed.

(** C3, as amended. For a job of the requester, the status check sends
    at most one status query, and it sends one exactly when the stored
    status is "completed", the row has a non-empty request id and the key
    is configured. It then polls that request id and stores the outcome:
    a "completed" answer stores its url, and "completed" if there is a url
    and "failed" if there is none; "failed" and "processing" are stored as
    they are; any other answer leaves the row as it was. Without a status
    query the log is empty and the table is untouched. Only status and
    result url of the row ever change, no other row does, and the status
    in the response is the one stored when the call returns. *)
Theorem on_demand_check_requeries_once
    (FAL_API_KEY : option string) (c : fal_client.Client) (job_id : Z)
    (db : Table) (user : models.User) (job : models.Job) :
  main.query_owned db job_id user = Some job ->
  exists log db' response stored,
    main.check_job_status FAL_API_KEY c job_id db user = (log, db', response)
    /\ (status_queries log <= 1)%nat
    /\ (status_queries log = 1%nat <->
        models.status job = "completed"
        /\ (exists request_id,
              models.fal_request_id job = Some request_id
              /\ request_id <> "")
        /\ truthy FAL_API_KEY = true)
    /\ (status_queries log = 0%nat -> log = [] /\ db' = db)
    /\ (status_queries log = 1%nat ->
        exists request_id status_result,
          models.fal_request_id job = Some request_id
          /\ fal_api.check_job_status FAL_API_KEY c request_id
               (models.application job)
             = (log, Return status_result)
          /\ (fal_api.status status_result = "completed" ->
              models.result_url stored = fal_api.result_url status_result
              /\ models.status stored
                 = match fal_api.result_url status_result with
                   | Some _ => "completed"
                   | None => "failed"
                   end)
          /\ (fal_api.status status_result = "failed" ->
              models.status stored = "failed"
              /\ models.result_url stored = models.result_url job)
          /\ (fal_api.status status_result = "processing" ->
              models.status stored = "processing"
              /\ models.result_url stored = models.result_url job)
          /\ (fal_api.status status_result <> "completed" ->
              fal_api.status status_result <> "failed" ->
              fal_api.status status_result <> "processing" ->
              stored = job))
    /\ db' !! job_id = Some stored
    /\ same_but_outcome job stored
    /\ (forall k, k <> job_id -> db' !! k = db !! k)
    /\ schemas.success response = true
    /\ main.status <$> schemas.data response = Some (models.status stored).
Proof.
  intros Hq. pose proof Hq as [Hjob _]%query_owned_Some.
  pose proof (believed_complete_iff job) as Hiff.
  destruct (main.believed_complete job) eqn:Hb.
  - destruct (proj1 Hiff eq_refl) as (Hstatus & request_id & Hrid & Hne).
    destruct (truthy FAL_API_KEY) eqn:Hkey.
    + destruct (check_job_status_returns FAL_API_KEY c request_id
                  (models.application job) Hkey)
        as (log & status_result & Heq & Hlog).
      pose proof (status_queries_one (models.application job) request_id
                    log Hlog) as Hone.
      destruct (reconcile_cases status_result job)
        as (Hsame & Hcompleted & Hfailed & Hprocessing & Hother).
      exists (StatusQuery (models.application job) request_id :: log),
        (<[job_id := main.reconcile status_result job]> db),
        (main.status_response job_id (main.reconcile status_result job)
           (Some status_result)),
        (main.reconcile status_result job).
      split.
      { exact (on_demand_reconciles FAL_API_KEY c db job_id user job
                 request_id _ status_result Hq Hb Hrid Heq). }
      rewrite Hone. split; [lia |]. split.
      { split; [| done]. intros _. split; [done |]. split; [| done].
        by exists request_id. }
      split; [discriminate |]. split.
      { intros _. exists request_id, status_result.
        split; [done |]. split; [done |]. split; [exact Hcompleted |].
        split; [exact Hfailed |]. split; [exact Hprocessing |].
        exact Hother. }
      split; [apply lookup_insert_eq |]. split; [done |].
      split; [intros k Hk; by rewrite lookup_insert_ne |]. done.
    + exists [], db, (main.status_response job_id job None), job.
      split.
      { exact (on_demand_raised FAL_API_KEY c db job_id user job request_id
                 _ _ Hq Hb Hrid
                 (check_job_status_unconfigured FAL_API_KEY c request_id
                    (models.application job) Hkey)). }
      change (status_queries []) with 0%nat.
      split; [lia |]. split.
      { split; [discriminate |]. by intros (_ & _ & ?). }
      split; [done |]. split; [discriminate |].
      split; [done |]. split; [apply same_but_outcome_refl |]. done.
  - exists [], db, (main.status_response job_id job None), job.
    split.
    { exact (on_demand_skips FAL_API_KEY c db job_id user job Hq Hb). }
    change (status_queries []) with 0%nat.
    split; [lia |]. split.
    { split; [discriminate |]. intros (Hstatus & Hrid & _).
      assert (false = true) by (apply Hiff; by split). discriminate. }
    split; [done |]. split; [discriminate |].
    split; [done |]. split; [apply same_but_outcome_refl |]. done.
Qed.

(** The theorem at a row of alice that says "completed", with the key
    set: one status query, and as the service says Completed with a result
    that has no image, the row and the response say "failed". *)
Lemma on_demand_check_requeries_once_witness :
  exists log db' response stored,
    main.check_job_status (Some "fal-key")
      (sample.service (Return fal_client.Completed)
         (Return sample.no_images))
      7 {[ 7 := sample.job 1 "completed" None ]} sample.alice
    = (log, db', response)
    /\ status_queries log = 1%nat
    /\ db' !! 7 = Some stored
    /\ models.status stored = "failed"
    /\ main.status <$> schemas.data response = Some "failed".
Proof.
  destruct (on_demand_check_requeries_once (Some "fal-key")
              (sample.service (Return fal_client.Completed)
                 (Return sample.no_images))
              7 {[ 7 := sample.job 1 "completed" None ]} sample.alice
              (sample.job 1 "completed" None))
    as (log & db' & response & stored & Heq & _ & Hiff & _ & Hone & Hstored
        & _ & _ & _ & Hresponse); [reflexivity |].
  assert (status_queries log = 1%nat) as Hqueries.
  { apply Hiff. split; [reflexivity |]. split; [| reflexivity].
    exists "req-1". split; [reflexivity | discriminate]. }
  destruct (Hone Hqueries)
    as (request_id & status_result & Hrid & Hpoll & Hcompleted & _).
  injection Hrid as <-. vm_compute in Hpoll. injection Hpoll as _ <-.
  destruct (Hcompleted eq_refl) as [_ Hfailed]. simpl in Hfailed.
  exists log, db', response, stored. rewrite Hresponse, Hfailed.
  repeat split; assumption.
Defined.

(** C3 as stated fails without the key: the row is "completed" and has a
    request id, and the check contacts nothing. *)
Lemma on_demand_check_counterexample :
  main.query_owned {[ 7 := sample.job 1 "completed" None ]} 7 sample.alice
  = Some (sample.job 1 "completed" None)
  /\ models.status (sample.job 1 "completed" None) = "completed"
  /\ models.fal_request_id (sample.job 1 "completed" None) = Some "req-1"
  /\ main.check_job_status None
       (sample.service (Return fal_client.Completed) (Return sample.picture))
       7 {[ 7 := sample.job 1 "completed" None ]} sample.alice
     = ([], {[ 7 := sample.job 1 "completed" None ]},
        main.status_response 7 (sample.job 1 "completed" None) None).
Proof. repeat split. Qed.

(** C8. Two status checks in a row against the same answers of the
    service: the second leaves the table as the first left it and returns
    the same response, so the same stored status. *)
Theorem on_demand_check_idempotent
    (FAL_API_KEY : option string) (c : fal_client.Client) (job_id : Z)
    (db : Table) (user : models.User) :
  let first := main.check_job_status FAL_API_KEY c job_id db user in
  let second := main.check_job_status FAL_API_KEY c job_id first.1.2 user in
  second.1.2 = first.1.2
  /\ second.2 = first.2
  /\ models.status <$> second.1.2 !! job_id
     = models.status <$> first.1.2 !! job_id.
Proof.
  cbv zeta.
  assert (forall once : list event * Table * schemas.BaseResponse _,
            main.check_job_status FAL_API_KEY c job_id once.1.2 user
            = (([], once.1.2, once.2) : list event * Table * _)
            \/ (main.check_job_status FAL_API_KEY c job_id once.1.2 user).1.2
               = once.1.2
               /\ (main.check_job_status FAL_API_KEY c job_id once.1.2
                     user).2 = once.2 ->
            (main.check_job_status FAL_API_KEY c job_id once.1.2 user).1.2
            = once.1.2
            /\ (main.check_job_status FAL_API_KEY c job_id once.1.2 user).2
               = once.2
            /\ models.status
               <$> (main.check_job_status FAL_API_KEY c job_id once.1.2
                      user).1.2 !! job_id
               = models.status <$> once.1.2 !! job_id) as Hwrap.
  { intros once [-> | [-> ->]]; done. }
  apply Hwrap. clear Hwrap.
  destruct (main.query_owned db job_id user) as [job|] eqn:Hq.
  2: { left. rewrite (on_demand_not_owned FAL_API_KEY c db job_id user Hq).
       simpl. exact (on_demand_not_owned FAL_API_KEY c db job_id user Hq). }
  destruct (main.believed_complete job) eqn:Hb.
  2: { right. rewrite (on_demand_skips FAL_API_KEY c db job_id user job Hq Hb).
       simpl.
       by rewrite (on_demand_skips FAL_API_KEY c db job_id user job Hq Hb). }
  destruct (believed_complete_request_id job Hb)
    as (_ & request_id & Hrid & _).
  destruct (fal_api.check_job_status FAL_API_KEY c request_id
              (models.application job)) as [log [status_result|e]] eqn:Hc.
  2: { right.
       rewrite (on_demand_raised FAL_API_KEY c db job_id user job request_id
                  log e Hq Hb Hrid Hc). simpl.
       by rewrite (on_demand_raised FAL_API_KEY c db job_id user job
                     request_id log e Hq Hb Hrid Hc). }
  right.
  rewrite (on_demand_reconciles FAL_API_KEY c db job_id user job request_id
             log status_result Hq Hb Hrid Hc). simpl.
  set (job1 := main.reconcile status_result job).
  destruct (reconcile_frame status_result job) as (Hrid1 & Happ1 & Hown1).
  fold job1 in Hrid1, Happ1, Hown1.
  assert (main.query_owned (<[job_id := job1]> db) job_id user = Some job1)
    as Hq1.
  { apply query_owned_Some. apply query_owned_Some in Hq as [_ Hown].
    split; [apply lookup_insert_eq | congruence]. }
  pose proof (believed_complete_reconcile status_result job Hb) as Hb1.
  fold job1 in Hb1.
  destruct (String.eqb (models.status job1) "completed") eqn:Hs1.
  - rewrite Hrid in Hrid1. rewrite <- Happ1 in Hc.
    rewrite (on_demand_reconciles FAL_API_KEY c _ job_id user job1 request_id
               log status_result Hq1 Hb1 Hrid1 Hc). simpl.
    apply String.eqb_eq in Hs1.
    unfold job1 in *. rewrite (reconcile_again status_result job Hs1).
    by rewrite insert_insert_eq.
  - rewrite (on_demand_skips FAL_API_KEY c _ job_id user job1 Hq1 Hb1). simpl.
    split; [done |]. unfold main.status_response.
    by rewrite (reconcile_left_completed FAL_API_KEY c request_id _ log
                  status_result job Hc Hs1).
Qed.

(** ** The monitor loop *)

Section monitor_loop.

Variable FAL_API_KEY : option string.
Variable fal : nat -> fal_client.Client.
Variable job_id : Z.
Variable request_id : string.

Lemma check_job_status_Return_key c application log status_result :
  fal_api.check_job_status FAL_API_KEY c request_id application
  = (log, Return status_result) ->
  truthy FAL_API_KEY = true.
Proof.
  destruct (truthy FAL_API_KEY) eqn:Hkey; [done |].
  by rewrite (check_job_status_unconfigured _ _ _ _ Hkey).
Qed.

Lemma check_job_status_Raise_key c application log e :
  fal_api.check_job_status FAL_API_KEY c request_id application
  = (log, Raise e) ->
  truthy FAL_API_KEY = false /\ log = [].
Proof.
  destruct (truthy FAL_API_KEY) eqn:Hkey.
  - destruct (check_job_status_returns FAL_API_KEY c request_id application
                Hkey) as (l & s & -> & _). discriminate.
  - rewrite (check_job_status_unconfigured _ _ _ _ Hkey). by intros [= <- _].
Qed.

(** A wrapper call sends at most one status query and never sleeps. *)
Lemma check_job_status_log c application :
  (status_queries
     (fal_api.check_job_status FAL_API_KEY c request_id application).1
   <= 1)%nat
  /\ List.filter is_sleep
       (fal_api.check_job_status FAL_API_KEY c request_id application).1
     = [].
Proof.
  unfold fal_api.check_job_status, status_queries.
  destruct (negb (truthy FAL_API_KEY)); [simpl; split; [lia | done] |].
  destruct (fal_client.status c application request_id) as [[]|];
    destruct (fal_client.result c application request_id);
    simpl; split; (lia || done).
Qed.

Lemma status_queries_app log log' :
  status_queries (log ++ Sleep 5 :: log')
  = (status_queries log + status_queries log')%nat.
Proof.
  unfold status_queries. rewrite List.filter_app. simpl.
  by rewrite length_app.
Qed.

(** With no row under [job_id] every pass fails before it polls: the loop
    sleeps its way through the budget. *)
Lemma monitor_loop_missing remaining attempt (db : Table) :
  db !! job_id = None ->
  main.monitor_loop FAL_API_KEY fal job_id request_id remaining attempt db
  = (replicate remaining (Sleep 5), db, (attempt + remaining)%nat).
Proof.
  intros Hmissing. revert attempt.
  induction remaining as [|remaining IH]; intros attempt; simpl.
  - by rewrite Nat.add_0_r.
  - rewrite (monitor_pass_missing FAL_API_KEY _ _ _ _ Hmissing), IH.
    by rewrite Nat.add_succ_r.
Qed.

Lemma monitor_loop_spec remaining :
  forall attempt (db : Table) job,
    db !! job_id = Some job ->
    exists log db' n job',
      main.monitor_loop FAL_API_KEY fal job_id request_id remaining attempt db
      = (log, db', n)
      /\ db' !! job_id = Some job'
      /\ models.application job' = models.application job
      /\ (attempt <= n <= attempt + remaining)%nat
      /\ List.filter is_sleep log = replicate (n - attempt) (Sleep 5)
      /\ (status_queries log <= remaining)%nat
      /\ (status_queries log <= S (n - attempt))%nat
      /\ (forall k,
            (attempt <= k < n)%nat ->
            terminal (report FAL_API_KEY fal request_id
                        (models.application job) k) = false)
      /\ ((n < attempt + remaining)%nat ->
          exists status_result,
            report FAL_API_KEY fal request_id (models.application job) n
            = Return status_result
            /\ (fal_api.status status_result = "completed"
                \/ fal_api.status status_result = "failed")
            /\ models.status job' = fal_api.status status_result)
      /\ (n = (attempt + remaining)%nat ->
          if truthy FAL_API_KEY
          then (remaining = 0%nat /\ db' = db)
               \/ exists status_result,
                    report FAL_API_KEY fal request_id
                      (models.application job) (attempt + remaining - 1)
                    = Return status_result
                    /\ fal_api.status status_result <> "completed"
                    /\ fal_api.status status_result <> "failed"
                    /\ models.status job' = fal_api.status status_result
          else db' = db).
Proof.
  induction remaining as [|remaining IH]; intros attempt db job Hjob.
  - exists [], db, attempt, job. unfold status_queries. simpl.
    rewrite Nat.sub_diag. repeat split; try done; try lia.
    intros _. destruct (truthy FAL_API_KEY); [by left | done].
  - simpl.
    pose proof (check_job_status_log (fal attempt) (models.application job))
      as [Hqueries Hsleeps].
    destruct (fal_api.check_job_status FAL_API_KEY (fal attempt) request_id
                (models.application job))
      as [plog [status_result|e]] eqn:Hc; simpl in Hqueries, Hsleeps.
    + rewrite (monitor_pass_stored FAL_API_KEY _ _ _ _ _ _ _ Hjob Hc).
      pose proof (check_job_status_Return_key _ _ _ _ Hc) as Hkey.
      assert (report FAL_API_KEY fal request_id (models.application job)
                attempt = Return status_result) as Hreport
        by (unfold report; by rewrite Hc).
      destruct (main.finished status_result) eqn:Hfinished.
      * exists plog, (<[job_id := main.record_status status_result job]> db),
          attempt, (main.record_status status_result job).
        rewrite Nat.sub_diag, lookup_insert_eq.
        repeat split; try done; try lia.
        -- apply record_status_application.
        -- exists status_result. apply finished_true in Hfinished.
           by rewrite record_status_status.
      * destruct (IH (S attempt)
                    (<[job_id := main.record_status status_result job]> db)
                    (main.record_status status_result job)
                    (lookup_insert_eq _ _ _))
          as (log & db' & n & job' & -> & Hjob' & Happ & Hrange & Hsleep
              & Hcount & Hcount' & Hbefore & Hearly & Hlate).
        rewrite record_status_application in Happ, Hbefore, Hearly, Hlate.
        exists (plog ++ Sleep 5 :: log)%list, db', n, job'.
        split; [done |]. split; [done |]. split; [done |].
        split; [lia |]. split.
        { rewrite List.filter_app, Hsleeps. simpl. rewrite Hsleep.
          replace (n - attempt)%nat with (S (n - S attempt)) by lia. done. }
        split; [rewrite status_queries_app; lia |].
        split; [rewrite status_queries_app; lia |]. split.
        { intros k Hk. destruct (decide (k = attempt)) as [->|Hne].
          - by rewrite Hreport, terminal_Return.
          - apply Hbefore. lia. }
        split; [intros Hn; apply Hearly; lia |].
        intros Hn. rewrite Hkey. rewrite Hkey in Hlate. right.
        destruct Hlate as [[-> ->] | (status_result' & Hr & Hf & Hs)];
          [lia | |].
        -- exists status_result.
           replace (attempt + 1 - 1)%nat with attempt by lia.
           rewrite lookup_insert_eq in Hjob'. injection Hjob' as <-.
           apply finished_false in Hfinished as [? ?].
           by rewrite record_status_status.
        -- exists status_result'.
           replace (attempt + S remaining - 1)%nat
             with (S attempt + remaining - 1)%nat by lia.
           done.
    + rewrite (monitor_pass_raised FAL_API_KEY _ _ _ _ _ _ _ Hjob Hc).
      destruct (check_job_status_Raise_key _ _ _ _ Hc) as [Hkey ->].
      assert (report FAL_API_KEY fal request_id (models.application job)
                attempt = Raise e) as Hreport
        by (unfold report; by rewrite Hc).
      destruct (IH (S attempt) db job Hjob)
        as (log & db' & n & job' & -> & Hjob' & Happ & Hrange & Hsleep
            & Hcount & Hcount' & Hbefore & Hearly & Hlate).
      exists ([] ++ Sleep 5 :: log)%list, db', n, job'.
      split; [done |]. split; [done |]. split; [done |].
      split; [lia |]. split.
      { simpl. rewrite Hsleep.
        replace (n - attempt)%nat with (S (n - S attempt)) by lia. done. }
      split; [rewrite status_queries_app; simpl; lia |].
      split; [rewrite status_queries_app; simpl; lia |]. split.
      { intros k Hk. destruct (decide (k = attempt)) as [->|Hne].
        - by rewrite Hreport.
        - apply Hbefore. lia. }
      split; [intros Hn; apply Hearly; lia |].
      intros Hn. rewrite Hkey. rewrite Hkey in Hlate. apply Hlate. lia.
Qed.

End monitor_loop.

(** C4. The monitor returns for every table, service and key: [attempt]
    ends at 120 at most, the log holds one 5-second sleep per completed
    attempt and at most one status query per pass, 120 at most. For a row
    that exists, no pass before the last one was told "completed" or
    "failed"; a monitor that ends early was told "completed" or "failed" in
    its last pass, the first such answer, and has stored it; a monitor that
    uses up the 120 attempts leaves the row with the status of the last
    answer, which is neither "completed" nor "failed" (or, without the key,
    leaves the table as it was). With no row it sleeps through the budget
    and changes nothing. *)
Theorem monitor_stops_within_budget
    (FAL_API_KEY : option string) (fal : nat -> fal_client.Client)
    (job_id : Z) (request_id : string) (db : Table)
    (application : option string) :
  exists log db' attempt,
    main.update_job_status FAL_API_KEY fal job_id request_id db application
    = (log, db', attempt)
    /\ main.max_attempts = 120%nat
    /\ (attempt <= 120)%nat
    /\ (status_queries log <= 120)%nat
    /\ (status_queries log <= S attempt)%nat
    /\ List.filter is_sleep log = replicate attempt (Sleep 5)
    /\ match db !! job_id with
       | None => db' = db /\ attempt = 120%nat
       | Some job =>
           (forall k,
              (k < attempt)%nat ->
              terminal (report FAL_API_KEY fal request_id
                          (models.application job) k) = false)
           /\ ((attempt < 120)%nat ->
               exists status_result,
                 report FAL_API_KEY fal request_id (models.application job)
                   attempt = Return status_result
                 /\ (fal_api.status status_result = "completed"
                     \/ fal_api.status status_result = "failed")
                 /\ models.status <$> db' !! job_id
                    = Some (fal_api.status status_result))
           /\ (attempt = 120%nat ->
               if truthy FAL_API_KEY
               then exists status_result,
                      report FAL_API_KEY fal request_id
                        (models.application job) 119
                      = Return status_result
                      /\ fal_api.status status_result <> "completed"
                      /\ fal_api.status status_result <> "failed"
                      /\ models.status <$> db' !! job_id
                         = Some (fal_api.status status_result)
               else db' = db)
       end.
Proof.
  unfold main.update_job_status.
  destruct (db !! job_id) as [job|] eqn:Hjob.
  - destruct (monitor_loop_spec FAL_API_KEY fal job_id request_id
                main.max_attempts 0%nat db job Hjob)
      as (log & db' & n & job' & Heq & Hjob' & _ & Hrange & Hsleep
          & Hcount & Hcount' & Hbefore & Hearly & Hlate).
    change main.max_attempts with 120%nat in *. simpl in Hrange, Hearly.
    rewrite Nat.sub_0_r in Hsleep, Hcount'.
    exists log, db', n. rewrite Hjob'. simpl.
    split; [done |]. split; [done |]. split; [lia |].
    split; [done |]. split; [done |]. split; [done |].
    split; [intros k Hk; apply Hbefore; lia |].
    split; [intros Hn; destruct (Hearly Hn) as (s & ? & ? & ->); by exists s |].
    intros Hn. specialize (Hlate Hn).
    destruct (truthy FAL_API_KEY); [| done].
    destruct Hlate as [[Hzero _] | (s & Hr & Hc & Hf & ->)];
      [discriminate |].
    by exists s.
  - rewrite (monitor_loop_missing FAL_API_KEY fal job_id request_id
               main.max_attempts 0%nat db Hjob).
    change main.max_attempts with 120%nat.
    exists (replicate 120 (Sleep 5)), db, 120%nat.
    split; [done |]. split; [done |]. split; [lia |].
    split; [vm_compute; lia |]. split; [vm_compute; lia |].
    split; [by vm_compute |]. done.
Qed.

(** The scenario of the specification: the service says the job is in
    progress during all 120 passes. The monitor ends with [attempt = 120],
    120 status queries and 120 sleeps, and the row says "processing". *)
Example monitor_exhausts_budget_while_processing :
  let '(log, db', attempt) :=
    main.update_job_status (Some "fal-key")
      (fun _ => sample.service (Return fal_client.InProgress)
                  (Raise (Error "not ready")))
      7 "req-1" {[ 7 := sample.job 1 "pending" None ]}
      (Some "fal-ai/nano-banana") in
  attempt = 120%nat
  /\ status_queries log = 120%nat
  /\ List.filter is_sleep log = replicate 120 (Sleep 5)
  /\ db' = {[ 7 := sample.job 1 "processing" None ]}.
Proof. by vm_compute. Qed.

(** A monitor that is told "completed" on its third pass. *)
Example monitor_stops_on_first_terminal_answer :
  let '(log, db', attempt) :=
    main.update_job_status (Some "fal-key")
      (fun n => if (n <? 2)%nat
                then sample.service (Return fal_client.Queued)
                       (Raise (Error "not ready"))
                else sample.service (Return fal_client.Completed)
                       (Return sample.picture))
      7 "req-1" {[ 7 := sample.job 1 "pending" None ]}
      (Some "fal-ai/nano-banana") in
  attempt = 2%nat
  /\ status_queries log = 3%nat
  /\ db' = {[ 7 := sample.job 1 "completed"
                     (Some "https://fal.media/out.jpeg") ]}.
Proof. by vm_compute. Qed.

(** ** Listing *)

Section list_jobs.

#[local] Instance id_desc_total : Total main.id_desc.
Proof. intros a b. unfold main.id_desc. lia. Qed.

#[local] Instance id_desc_transitive : Transitive main.id_desc.
Proof. intros a b c. unfold main.id_desc. lia. Qed.

(** Sorted by [id_desc] without a repeated key is strictly newest-first. *)
Lemma id_desc_strict (rows : list schemas.JobOut) :
  StronglySorted main.id_desc rows ->
  NoDup rows.*1 ->
  StronglySorted newer rows.
Proof.
  induction 1 as [|a rows _ IH Hall]; intros Hnodup; [constructor |].
  rewrite fmap_cons in Hnodup. apply NoDup_cons in Hnodup as [Hfresh Hnodup].
  constructor; [by apply IH |].
  rewrite Forall_forall in Hall. apply Forall_forall. intros b Hb.
  specialize (Hall b Hb). unfold main.id_desc in Hall. unfold newer.
  assert (b.1 <> a.1); [| lia].
  intros Heq. apply Hfresh. rewrite <- Heq. by apply list_elem_of_fmap_2.
Qed.

(** The rows of a user, newest first: what [list_jobs] pages through. *)
Lemma owned_rows_sorted (db : Table) (user : models.User) :
  let rows :=
    merge_sort main.id_desc
      (filter (fun row : schemas.JobOut =>
                 models.owner_id row.2 = models.id user)
         (map_to_list db)) in
  StronglySorted newer rows
  /\ forall row,
       row ∈ rows <->
       db !! row.1 = Some row.2 /\ models.owner_id row.2 = models.id user.
Proof.
  intros rows. split.
  - apply id_desc_strict; [apply StronglySorted_merge_sort; apply _ |].
    unfold rows. rewrite merge_sort_Permutation.
    eapply sublist_NoDup; [apply (NoDup_fst_map_to_list db) |].
    apply fmap_sublist, sublist_filter.
  - intros [k job]. unfold rows. rewrite merge_sort_Permutation.
    rewrite list_elem_of_filter, elem_of_map_to_list. simpl. tauto.
Qed.

End list_jobs.

(** C9. Pages 1 and 2 of 20 are the first 20 and the next 20 of one list:
    the rows of the table owned by the user, each once, in strictly
    descending order of the primary key. So the two pages together are the
    first 40 of that list, every row of page 1 is newer than every row of
    page 2, no row is on both, and every row belongs to the user. *)
Theorem list_jobs_pages_are_contiguous (db : Table) (user : models.User) :
  exists rows page1 page2,
    schemas.data (main.list_jobs 1 20 db user) = Some page1
    /\ schemas.data (main.list_jobs 2 20 db user) = Some page2
    /\ StronglySorted newer rows
    /\ (forall row,
          row ∈ rows <->
          db !! row.1 = Some row.2
          /\ models.owner_id row.2 = models.id user)
    /\ page1 = take 20 rows
    /\ page2 = take 20 (drop 20 rows)
    /\ (page1 ++ page2)%list = take 40 rows
    /\ (forall a b, a ∈ page1 -> b ∈ page2 -> newer a b)
    /\ (forall row, row ∈ page1 -> row ∈ page2 -> False)
    /\ Forall (fun row : schemas.JobOut =>
                 models.owner_id row.2 = models.id user
                 /\ db !! row.1 = Some row.2)
         (page1 ++ page2)%list.
Proof.
  destruct (owned_rows_sorted db user) as [Hsorted Hrows].
  set (rows := merge_sort main.id_desc _) in Hsorted, Hrows.
  exists rows, (take 20 rows), (take 20 (drop 20 rows)).
  assert (forall a b : schemas.JobOut,
            a ∈ take 20 rows -> b ∈ take 20 (drop 20 rows) -> newer a b)
    as Hacross.
  { intros a b Ha Hb. rewrite <- (take_drop 20 rows) in Hsorted.
    apply (StronglySorted_app_1_elem_of _ _ _ _ _ Hsorted Ha).
    by apply (subseteq_take 20). }
  split; [reflexivity |]. split; [reflexivity |].
  split; [exact Hsorted |]. split; [exact Hrows |].
  split; [reflexivity |]. split; [reflexivity |].
  split; [apply (take_take_drop rows 20 20) |].
  split; [exact Hacross |]. split.
  - intros row H1 H2. specialize (Hacross row row H1 H2).
    unfold newer in Hacross. lia.
  - rewrite (take_take_drop rows 20 20). apply Forall_take, Forall_forall.
    intros row Hrow. apply Hrows in Hrow. tauto.
Qed.

(** Three jobs of one user and one of another: page 1 lists the user's
    jobs newest first, page 2 is empty. *)
Example list_jobs_sample :
  schemas.data
    (main.list_jobs 1 20
       {[ 3 := sample.job 1 "pending" None;
          4 := sample.job 2 "pending" None;
          5 := sample.job 1 "failed" None;
          9 := sample.job 1 "processing" None ]} sample.alice)
  = Some [ (9, sample.job 1 "processing" None);
           (5, sample.job 1 "failed" None);
           (3, sample.job 1 "pending" None) ]
  /\ schemas.data
       (main.list_jobs 2 20
          {[ 3 := sample.job 1 "pending" None;
             4 := sample.job 2 "pending" None;
             5 := sample.job 1 "failed" None;
             9 := sample.job 1 "processing" None ]} sample.alice)
     = Some [].
Proof. by vm_compute. Qed.

(** ** Job creation *)

Section create_job.

Variable FAL_API_KEY : option string.
Variable b64encode : bytes -> string.
Variable Image_open_size : bytes -> outcome (Z * Z).

Lemma rejected_spec message (db : Table) :
  message <> "" ->
  (main.rejected message db).1.1.1 = []
  /\ answered false (main.rejected message db)
  /\ nothing_created db (main.rejected message db).
Proof.
  intros H. unfold nothing_created, nothing_stored, answered. simpl.
  split; [done |]. split; [done |]. by intros response [= <-] _.
Qed.

Lemma submit_fal_job_unconfigured c prompt image_bytes :
  truthy FAL_API_KEY = false ->
  fal_api.submit_fal_job FAL_API_KEY b64encode c prompt image_bytes
  = ([], Raise (HTTPException 500 "FAL API key not configured")).
Proof. intros H. unfold fal_api.submit_fal_job. by rewrite H. Qed.

(** [submit_and_store] always returns a response. *)
Lemma submit_and_store_returns c prompt image_bytes image_url strength
    (db : Table) user :
  exists response,
    (main.submit_and_store FAL_API_KEY b64encode c prompt image_bytes
       image_url strength db user).1.2 = Return response.
Proof.
  unfold main.submit_and_store.
  destruct (fal_api.submit_fal_job FAL_API_KEY b64encode c prompt
              image_bytes) as [log [fal_response|e]]; by eexists.
Qed.

Lemma submit_and_store_spec c prompt image_bytes image_url strength
    (db : Table) user :
  let r :=
    main.submit_and_store FAL_API_KEY b64encode c prompt image_bytes
      image_url strength db user in
  nothing_created db r
  /\ (truthy FAL_API_KEY = false -> answered false r /\ r.1.1.1 = [])
  /\ (forall log e,
        fal_api.submit_fal_job FAL_API_KEY b64encode c prompt image_bytes
        = (log, Raise e) ->
        answered false r).
Proof.
  unfold main.submit_and_store, nothing_created, nothing_stored, answered.
  destruct (truthy FAL_API_KEY) eqn:Hkey.
  - destruct (fal_api.submit_fal_job FAL_API_KEY b64encode c prompt
                image_bytes) as [log [fal_response|e]]; simpl.
    + split; [by intros response [= <-] |]. split; [discriminate |].
      intros ? ? [= _ ?].
    + split; [by intros response [= <-] _ |]. by split.
  - rewrite (submit_fal_job_unconfigured c prompt image_bytes Hkey). simpl.
    split; [by intros response [= <-] _ |]. by split.
Qed.

(** The one way out of [create_job] by an exception: an attached upload
    without a content type, met before anything is sent or stored. *)
Lemma create_job_raises c prompt image strength (db : Table) user e :
  (main.create_job FAL_API_KEY b64encode Image_open_size c prompt image
     strength db user).1.2 = Raise e ->
  main.create_job FAL_API_KEY b64encode Image_open_size c prompt image
    strength db user
  = ([], db, Raise main.AttributeError_startswith, None)
  /\ exists upload,
       attached image = Some upload /\ main.content_type upload = None.
Proof.
  pose proof (fun bytes url =>
                submit_and_store_returns c prompt bytes url strength db user)
    as Hreturns.
  unfold main.create_job, attached.
  destruct image as [image|];
    [| intros He; destruct (Hreturns None None) as [r Hr]; congruence].
  destruct (negb (String.eqb (main.filename image) "")) eqn:Hname;
    [| intros He; destruct (Hreturns None None) as [r Hr]; congruence].
  destruct (main.content_type image) as [content_type|] eqn:Htype;
    [| intros _; split; [done | by exists image]].
  destruct (negb (String.prefix "image/" content_type)); [discriminate |].
  destruct (Z.of_nat (length (main.file image)) >? 10 * 1024 * 1024);
    [discriminate |].
  destruct (Image_open_size (main.file image)) as [[width height]|e'];
    [| discriminate].
  destruct ((width <? 64) || (height <? 64)); [discriminate |].
  destruct ((width >? 4096) || (height >? 4096)); [discriminate |].
  intros He.
  destruct (Hreturns (Some (main.file image))
              (Some ("data:image/jpeg;base64,"
                     +:+ b64encode (main.file image))))
    as [r Hr].
  congruence.
Qed.

End create_job.

(** C5, where the code departs from it. An upload that has a file name
    and no content type is not an image, and the claim has the call return
    a descriptive failure. The code calls [startswith] on the missing
    content type outside any [try]: the call ends with an [AttributeError]
    instead of a response. It has sent and stored nothing by then. *)
Theorem create_job_raises_without_content_type
    (FAL_API_KEY : option string) (b64encode : bytes -> string)
    (Image_open_size : bytes -> outcome (Z * Z)) (c : fal_client.Client)
    (prompt : string) (upload : main.UploadFile) (strength : float)
    (db : Table) (user : models.User) :
  main.filename upload <> "" ->
  main.content_type upload = None ->
  main.create_job FAL_API_KEY b64encode Image_open_size c prompt
    (Some upload) strength db user
  = ([], db,
     Raise (Error "'NoneType' object has no attribute 'startswith'"),
     None).
Proof.
  intros Hname Htype. unfold main.create_job.
  apply String.eqb_neq in Hname. by rewrite Hname, Htype.
Qed.

(** The theorem at a PNG sent without a Content-Type header, next to the
    answer the same bytes get when they are declared as text. *)
Lemma create_job_raises_without_content_type_witness :
  main.create_job (Some "fal-key") sample.b64 (sample.sized 512 512)
    (sample.service (Return fal_client.Queued) (Raise (Error "not ready")))
    "make it blue"
    (Some {| main.filename := "cat.png";
             main.content_type := None;
             main.file := [Byte.x89; Byte.x50] |})
    1%float {[ 7 := sample.job 1 "pending" None ]} sample.alice
  = ([], {[ 7 := sample.job 1 "pending" None ]},
     Raise (Error "'NoneType' object has no attribute 'startswith'"),
     None)
  /\ main.create_job (Some "fal-key") sample.b64 (sample.sized 512 512)
       (sample.service (Return fal_client.Queued)
          (Raise (Error "not ready")))
       "make it blue"
       (Some {| main.filename := "cat.png";
                main.content_type := Some "text/plain";
                main.file := [Byte.x89; Byte.x50] |})
       1%float {[ 7 := sample.job 1 "pending" None ]} sample.alice
     = ([], {[ 7 := sample.job 1 "pending" None ]},
        Return {| schemas.success := false;
                  schemas.message := "File must be an image";
                  schemas.data := None |},
        None).
Proof.
  split; [| reflexivity].
  apply (create_job_raises_without_content_type (Some "fal-key") sample.b64
           (sample.sized 512 512)
           (sample.service (Return fal_client.Queued)
              (Raise (Error "not ready")))
           "make it blue"
           {| main.filename := "cat.png";
              main.content_type := None;
              main.file := [Byte.x89; Byte.x50] |}
           1%float {[ 7 := sample.job 1 "pending" None ]} sample.alice).
  - discriminate.
  - reflexivity.
Defined.

(** The scenario of the specification: a 50x50 upload is turned down
    before anything is sent or stored. *)
Example create_job_rejects_small_image :
  main.create_job (Some "fal-key") sample.b64 (sample.sized 50 50)
    (sample.service (Return fal_client.Queued) (Raise (Error "not ready")))
    "make it blue"
    (Some {| main.filename := "cat.png";
             main.content_type := Some "image/png";
             main.file := [Byte.x89; Byte.x50] |})
    1%float ∅ sample.alice
  = ([], ∅,
     Return {| schemas.success := false;
               schemas.message := "Image too small (min 64x64 pixels)";
               schemas.data := None |},
     None).
Proof. reflexivity. Qed.

(** A request without an image: one submission to the text-to-image
    endpoint, one row in state "pending" with the default strength, one
    monitor scheduled. *)
Example create_job_text_to_image :
  main.create_job (Some "fal-key") sample.b64 sample.unreadable
    (sample.service (Return fal_client.Queued) (Raise (Error "not ready")))
    "a red bicycle" None 1%float ∅ sample.alice
  = ([SubmitRequest "fal-ai/nano-banana"],
     {[ 1 := sample.job 1 "pending" None ]},
     Return {| schemas.success := true;
               schemas.message := "Job created successfully";
               schemas.data := Some (1, sample.job 1 "pending" None) |},
     Some {| main.task_job_id := 1;
             main.task_request_id := "req-1";
             main.task_application := Some "fal-ai/nano-banana" |}).
Proof. by vm_compute. Qed.

(** ** The stored invariant *)

(** C1, where the code departs from it. A job is created, and its monitor
    is told on the first pass that the job is completed while the result
    holds no image. The monitor stores "completed" with no result url and
    stops; the status check of the same row against the same answers turns
    that row into "failed". *)
Theorem monitor_stores_completed_without_result :
  let service :=
    sample.service (Return fal_client.Completed) (Return sample.no_images) in
  let created :=
    main.create_job (Some "fal-key") sample.b64 sample.unreadable service
      "a red bicycle" None 1%float ∅ sample.alice in
  let monitored :=
    main.update_job_status (Some "fal-key") (fun _ => service) 1 "req-1"
      created.1.1.2 (Some "fal-ai/nano-banana") in
  let checked :=
    main.check_job_status (Some "fal-key") service 1 monitored.1.2
      sample.alice in
  created.2
  = Some {| main.task_job_id := 1;
            main.task_request_id := "req-1";
            main.task_application := Some "fal-ai/nano-banana" |}
  /\ monitored.2 = 0%nat
  /\ monitored.1.2 !! 1 = Some (sample.job 1 "completed" None)
  /\ models.status <$> monitored.1.2 !! 1 = Some "completed"
  /\ models.result_url <$> monitored.1.2 !! 1 = Some None
  /\ models.status <$> checked.1.2 !! 1 = Some "failed".
Proof. by vm_compute. Qed.

(** * Further properties *)

(** ** The poll wrapper *)

(** X1. With the key set the wrapper sends one status query for the
    request it was given, and fetches the result only after an answer of
    Completed or a failed query. Its status is one of five strings, and only
    "completed" comes with a url. *)
Theorem poll_fetches_result_only_when_needed
    (FAL_API_KEY : option string) (c : fal_client.Client)
    (request_id : string) (application : option string) :
  truthy FAL_API_KEY = true ->
  exists status_result,
    fal_api.check_job_status FAL_API_KEY c request_id application
    = (StatusQuery application request_id
         :: (if needs_result (fal_client.status c application request_id)
             then [ResultFetch application request_id] else []),
       Return status_result)
    /\ fal_api.status status_result
       ∈ ["completed"; "failed"; "processing"; "queued"; "pending"]
    /\ (is_Some (fal_api.result_url status_result) ->
        fal_api.status status_result = "completed")
    /\ match fal_client.status c application request_id with
       | Return fal_client.Queued => fal_api.status status_result = "queued"
       | Return fal_client.InProgress =>
           fal_api.status status_result = "processing"
       | Return fal_client.OtherStatus =>
           fal_api.status status_result = "pending"
       | Return fal_client.Completed =>
           fal_api.status status_result = "completed"
           \/ fal_api.status status_result = "failed"
       | Raise _ =>
           fal_api.status status_result = "completed"
           \/ fal_api.status status_result = "pending"
       end.
Proof.
  intros Hkey. unfold fal_api.check_job_status. rewrite Hkey. simpl.
  destruct (fal_client.status c application request_id) as [[]|];
    destruct (fal_client.result c application request_id);
    simpl; eexists; (split; [reflexivity |]); simpl;
    (split; [set_solver |]);
    (split; [by intros [? [=]] || done | by (left + right + idtac)]).
Qed.

Lemma poll_fetches_result_only_when_needed_witness :
  exists status_result,
    fal_api.check_job_status (Some "fal-key")
      (sample.service (Return fal_client.InProgress)
         (Return sample.picture))
      "req-1" (Some "fal-ai/nano-banana")
    = (StatusQuery (Some "fal-ai/nano-banana") "req-1"
         :: (if needs_result
                  (fal_client.status
                     (sample.service (Return fal_client.InProgress)
                        (Return sample.picture))
                     (Some "fal-ai/nano-banana") "req-1")
             then [ResultFetch (Some "fal-ai/nano-banana") "req-1"]
             else []),
       Return status_result)
    /\ fal_api.status status_result
       ∈ ["completed"; "failed"; "processing"; "queued"; "pending"]
    /\ (is_Some (fal_api.result_url status_result) ->
        fal_api.status status_result = "completed")
    /\ fal_api.status status_result = "processing".
Proof.
  apply (poll_fetches_result_only_when_needed (Some "fal-key")
           (sample.service (Return fal_client.InProgress)
              (Return sample.picture))
           "req-1" (Some "fal-ai/nano-banana")).
  reflexivity.
Defined.

(** ** What the monitor writes *)

Section monitor_row.

Variable FAL_API_KEY : option string.
Variable fal : nat -> fal_client.Client.
Variable job_id : Z.
Variable request_id : string.

Lemma record_status_same status_result job :
  same_but_outcome (main.record_status status_result job) job.
Proof.
  unfold main.record_status.
  destruct (String.eqb (fal_api.status status_result) "completed");
    by repeat split.
Qed.

Lemma record_status_result_url status_result job :
  models.result_url (main.record_status status_result job)
  = if String.eqb (fal_api.status status_result) "completed"
    then fal_api.result_url status_result
    else models.result_url job.
Proof.
  unfold main.record_status.
  by destruct (String.eqb (fal_api.status status_result) "completed").
Qed.

Lemma monitor_loop_row remaining :
  forall attempt (db : Table) job,
    db !! job_id = Some job ->
    exists log n job',
      main.monitor_loop FAL_API_KEY fal job_id request_id remaining attempt db
      = (log, <[job_id := job']> db, n)
      /\ same_but_outcome job' job
      /\ models.result_url job'
         = final_result_url FAL_API_KEY fal request_id job n
             (attempt + remaining).
Proof.
  induction remaining as [|remaining IH]; intros attempt db job Hjob.
  - exists [], attempt, job. simpl. rewrite (insert_id db job_id job Hjob).
    split; [done |]. split; [apply same_but_outcome_refl |].
    unfold final_result_url.
    by replace (attempt <? attempt + 0)%nat with false
      by (symmetry; apply Nat.ltb_ge; lia).
  - simpl.
    destruct (fal_api.check_job_status FAL_API_KEY (fal attempt) request_id
                (models.application job))
      as [plog [status_result|e]] eqn:Hc.
    + rewrite (monitor_pass_stored FAL_API_KEY _ _ _ _ _ _ _ Hjob Hc).
      assert (report FAL_API_KEY fal request_id (models.application job)
                attempt = Return status_result) as Hreport
        by (unfold report; by rewrite Hc).
      destruct (main.finished status_result) eqn:Hfinished.
      * exists plog, attempt, (main.record_status status_result job).
        split; [done |]. split; [apply record_status_same |].
        unfold final_result_url. rewrite Hreport.
        replace (attempt <? attempt + S remaining)%nat with true
          by (symmetry; apply Nat.ltb_lt; lia).
        apply record_status_result_url.
      * apply orb_false_elim in Hfinished as [Hnot_completed _].
        destruct (IH (S attempt)
                    (<[job_id := main.record_status status_result job]> db)
                    (main.record_status status_result job)
                    (lookup_insert_eq _ _ _))
          as (log & n & job' & -> & Hsame & Hurl).
        exists (plog ++ Sleep 5 :: log)%list, n, job'.
        rewrite insert_insert_eq. split; [done |].
        split.
        { eapply same_but_outcome_trans; [exact Hsame |].
          apply record_status_same. }
        rewrite Hurl. unfold final_result_url.
        rewrite record_status_application, record_status_result_url,
          Hnot_completed.
        by replace (S attempt + remaining)%nat
          with (attempt + S remaining)%nat by lia.
    + rewrite (monitor_pass_raised FAL_API_KEY _ _ _ _ _ _ _ Hjob Hc).
      destruct (IH (S attempt) db job Hjob)
        as (log & n & job' & -> & Hsame & Hurl).
      exists (plog ++ Sleep 5 :: log)%list, n, job'.
      split; [done |]. split; [done |]. rewrite Hurl.
      by replace (S attempt + remaining)%nat
        with (attempt + S remaining)%nat by lia.
Qed.

(** Without the key no pass gets past the wrapper's guard. *)
Lemma monitor_loop_unconfigured remaining :
  truthy FAL_API_KEY = false ->
  forall attempt (db : Table),
    main.monitor_loop FAL_API_KEY fal job_id request_id remaining attempt db
    = (replicate remaining (Sleep 5), db, (attempt + remaining)%nat).
Proof.
  intros Hkey. induction remaining as [|remaining IH]; intros attempt db.
  - simpl. by rewrite Nat.add_0_r.
  - simpl.
    assert (main.monitor_pass FAL_API_KEY (fal attempt) job_id request_id db
            = ([], db, false)) as ->.
    { destruct (db !! job_id) as [job|] eqn:Hjob.
      - apply (monitor_pass_raised FAL_API_KEY _ _ _ _ job _
                 (HTTPException 500 "FAL API key not configured") Hjob).
        by apply check_job_status_unconfigured.
      - by apply monitor_pass_missing. }
    rewrite IH. by rewrite Nat.add_succ_r.
Qed.

End monitor_row.

(** X2. The monitor of a job changes no other row of the table, and in its
    own row nothing but [status] and [result_url]; it neither adds nor
    removes a row. *)
Theorem monitor_touches_only_its_row
    (FAL_API_KEY : option string) (fal : nat -> fal_client.Client)
    (job_id : Z) (request_id : string) (db : Table)
    (application : option string) :
  exists log db' attempt,
    main.update_job_status FAL_API_KEY fal job_id request_id db application
    = (log, db', attempt)
    /\ (forall k, k <> job_id -> db' !! k = db !! k)
    /\ match db !! job_id with
       | Some job =>
           exists job',
             db' !! job_id = Some job' /\ same_but_outcome job' job
       | None => db' = db
       end.
Proof.
  unfold main.update_job_status.
  destruct (db !! job_id) as [job|] eqn:Hjob.
  - destruct (monitor_loop_row FAL_API_KEY fal job_id request_id
                main.max_attempts 0%nat db job Hjob)
      as (log & n & job' & -> & Hsame & _).
    eexists _, _, _. split; [reflexivity |]. split.
    + intros k Hk. by rewrite lookup_insert_ne.
    + exists job'. by rewrite lookup_insert_eq.
  - rewrite (monitor_loop_missing FAL_API_KEY fal job_id request_id
               main.max_attempts 0%nat db Hjob).
    by eexists _, _, _.
Qed.

(** X3. The monitor writes [result_url] only when it ends on "completed":
    then the row holds the url of that answer (none, if the answer had
    none). A monitor that ends on "failed", or uses up its 120 attempts,
    leaves the url the row had. *)
Theorem monitor_writes_url_only_on_completed
    (FAL_API_KEY : option string) (fal : nat -> fal_client.Client)
    (job_id : Z) (request_id : string) (db : Table)
    (application : option string) (job : models.Job) :
  db !! job_id = Some job ->
  exists log db' attempt job',
    main.update_job_status FAL_API_KEY fal job_id request_id db application
    = (log, db', attempt)
    /\ db' !! job_id = Some job'
    /\ (forall status_result,
          (attempt < 120)%nat ->
          report FAL_API_KEY fal request_id (models.application job) attempt
          = Return status_result ->
          models.result_url job'
          = if String.eqb (fal_api.status status_result) "completed"
            then fal_api.result_url status_result
            else models.result_url job)
    /\ (attempt = 120%nat -> models.result_url job' = models.result_url job).
Proof.
  intros Hjob. unfold main.update_job_status.
  destruct (monitor_loop_row FAL_API_KEY fal job_id request_id
              main.max_attempts 0%nat db job Hjob)
    as (log & n & job' & -> & _ & Hurl).
  change (0 + main.max_attempts)%nat with 120%nat in Hurl.
  unfold final_result_url in Hurl.
  exists log, (<[job_id := job']> db), n, job'.
  split; [done |]. split; [apply lookup_insert_eq |]. split.
  - intros status_result Hn Hreport.
    apply Nat.ltb_lt in Hn. by rewrite Hn, Hreport in Hurl.
  - intros ->. exact Hurl.
Qed.

Lemma monitor_writes_url_only_on_completed_witness :
  exists log db' attempt job',
    main.update_job_status (Some "fal-key")
      (fun _ => sample.service (Return fal_client.Completed)
                  (Raise (Error "result expired")))
      7 "req-1"
      {[ 7 := sample.job 1 "processing" (Some "https://fal.media/old.jpeg") ]}
      (Some "fal-ai/nano-banana")
    = (log, db', attempt)
    /\ db' !! 7 = Some job'
    /\ attempt = 0%nat
    /\ models.status job' = "failed"
    /\ models.result_url job' = Some "https://fal.media/old.jpeg".
Proof.
  destruct (monitor_writes_url_only_on_completed (Some "fal-key")
              (fun _ => sample.service (Return fal_client.Completed)
                          (Raise (Error "result expired")))
              7 "req-1"
              {[ 7 := sample.job 1 "processing"
                        (Some "https://fal.media/old.jpeg") ]}
              (Some "fal-ai/nano-banana")
              (sample.job 1 "processing" (Some "https://fal.media/old.jpeg")))
    as (log & db' & attempt & job' & Heq & Hjob' & Hearly & _);
    [reflexivity |].
  vm_compute in Heq. injection Heq as <- <- <-.
  eexists _, _, 0%nat, job'. split; [by vm_compute |].
  split; [exact Hjob' |]. split; [done |].
  split; [by injection Hjob' as <- |].
  rewrite (Hearly _ ltac:(lia) eq_refl). reflexivity.
Defined.

(** X4. Started without the key, the monitor sends nothing and stores
    nothing: it sleeps 120 times 5 seconds and ends with [attempt = 120],
    whether the row exists or not. *)
Theorem monitor_without_key_only_sleeps
    (FAL_API_KEY : option string) (fal : nat -> fal_client.Client)
    (job_id : Z) (request_id : string) (db : Table)
    (application : option string) :
  truthy FAL_API_KEY = false ->
  main.update_job_status FAL_API_KEY fal job_id request_id db application
  = (replicate 120 (Sleep 5), db, 120%nat).
Proof.
  intros Hkey. unfold main.update_job_status.
  exact (monitor_loop_unconfigured FAL_API_KEY fal job_id request_id
           main.max_attempts Hkey 0%nat db).
Qed.

Lemma monitor_without_key_only_sleeps_witness :
  main.update_job_status None
    (fun _ => sample.service (Return fal_client.Completed)
                (Return sample.picture))
    7 "req-1" {[ 7 := sample.job 1 "pending" None ]}
    (Some "fal-ai/nano-banana")
  = (replicate 120 (Sleep 5), {[ 7 := sample.job 1 "pending" None ]},
     120%nat).
Proof.
  apply (monitor_without_key_only_sleeps None
           (fun _ => sample.service (Return fal_client.Completed)
                       (Return sample.picture))
           7 "req-1" {[ 7 := sample.job 1 "pending" None ]}
           (Some "fal-ai/nano-banana")).
  reflexivity.
Defined.

(** ** What the status check writes *)

Section on_demand_row.

Variable FAL_API_KEY : option string.

Lemma reconcile_same status_result job :
  same_but_outcome (main.reconcile status_result job) job.
Proof.
  unfold main.reconcile.
  repeat (case_match; simpl); by repeat split.
Qed.

(** A reconciled row that says "completed" has a url if the answer said
    "completed", or if the row had one. *)
Lemma reconcile_completed_has_result status_result job :
  (models.status job = "completed" -> is_Some (models.result_url job)) ->
  models.status (main.reconcile status_result job) = "completed" ->
  is_Some (models.result_url (main.reconcile status_result job)).
Proof.
  unfold main.reconcile. intros Hjob.
  destruct (String.eqb (fal_api.status status_result) "completed").
  - destruct (fal_api.result_url status_result); [by eexists | discriminate].
  - destruct (String.eqb (fal_api.status status_result) "failed");
      [discriminate |].
    destruct (String.eqb (fal_api.status status_result) "processing");
      [discriminate | exact Hjob].
Qed.

(** The status check either leaves the table alone or replaces the row of
    a job of the requester by its reconciled version. *)
Lemma on_demand_table c job_id (db : Table) user :
  (main.check_job_status FAL_API_KEY c job_id db user).1.2 = db
  \/ exists job status_result,
       main.query_owned db job_id user = Some job
       /\ (main.check_job_status FAL_API_KEY c job_id db user).1.2
          = <[job_id := main.reconcile status_result job]> db.
Proof.
  destruct (main.query_owned db job_id user) as [job|] eqn:Hq.
  2: { left. by rewrite (on_demand_not_owned FAL_API_KEY c db job_id user Hq). }
  destruct (main.believed_complete job) eqn:Hb.
  2: { left. by rewrite (on_demand_skips FAL_API_KEY c db job_id user job
                           Hq Hb). }
  destruct (believed_complete_request_id job Hb)
    as (_ & request_id & Hrid & _).
  destruct (fal_api.check_job_status FAL_API_KEY c request_id
              (models.application job)) as [log [status_result|e]] eqn:Hc.
  - right. exists job, status_result. split; [done |].
    by rewrite (on_demand_reconciles FAL_API_KEY c db job_id user job
                  request_id log status_result Hq Hb Hrid Hc).
  - left. by rewrite (on_demand_raised FAL_API_KEY c db job_id user job
                        request_id log e Hq Hb Hrid Hc).
Qed.

End on_demand_row.

(** X5. The status check changes no row but the one asked for, and there
    nothing but [status] and [result_url]; a row of another user, and a
    table without the row, are left exactly as they were. *)
Theorem on_demand_check_touches_only_its_row
    (FAL_API_KEY : option string) (c : fal_client.Client) (job_id : Z)
    (db : Table) (user : models.User) :
  exists log db' response,
    main.check_job_status FAL_API_KEY c job_id db user = (log, db', response)
    /\ (forall k, k <> job_id -> db' !! k = db !! k)
    /\ match db !! job_id with
       | Some job =>
           exists job',
             db' !! job_id = Some job'
             /\ same_but_outcome job' job
             /\ (models.owner_id job <> models.id user -> job' = job)
       | None => db' = db
       end.
Proof.
  destruct (main.check_job_status FAL_API_KEY c job_id db user)
    as [[log db'] response] eqn:Heq.
  exists log, db', response. split; [done |].
  pose proof (on_demand_table FAL_API_KEY c job_id db user) as Htable.
  rewrite Heq in Htable. simpl in Htable.
  destruct Htable as [-> | (job & status_result & Hq & ->)].
  - split; [done |]. destruct (db !! job_id) as [job|]; [| done].
    exists job. split; [done |]. split; [| done].
    by repeat split.
  - apply query_owned_Some in Hq as [Hjob Howner]. rewrite Hjob. split.
    + intros k Hk. by rewrite lookup_insert_ne.
    + eexists. split; [apply lookup_insert_eq |].
      split; [apply reconcile_same | done].
Qed.

(** X6. The status check keeps the rule that a "completed" row has a
    result url: a table in which it holds for every row is left as one in
    which it holds for every row. *)
Theorem on_demand_check_keeps_completed_with_result
    (FAL_API_KEY : option string) (c : fal_client.Client) (job_id : Z)
    (db : Table) (user : models.User) :
  completed_has_result db ->
  completed_has_result
    (main.check_job_status FAL_API_KEY c job_id db user).1.2.
Proof.
  intros Hdb.
  destruct (on_demand_table FAL_API_KEY c job_id db user)
    as [-> | (job & status_result & Hq & ->)]; [done |].
  apply query_owned_Some in Hq as [Hjob _].
  intros k row Hrow Hcompleted.
  destruct (decide (k = job_id)) as [->|Hne].
  - rewrite lookup_insert_eq in Hrow. injection Hrow as <-.
    apply reconcile_completed_has_result; [| done].
    by apply (Hdb job_id).
  - rewrite lookup_insert_ne in Hrow by done. by apply (Hdb k).
Qed.

Lemma on_demand_check_keeps_completed_with_result_witness :
  completed_has_result
    {[ 7 := sample.job 1 "completed" (Some "https://fal.media/out.jpeg") ]}
  /\ completed_has_result
       (main.check_job_status (Some "fal-key")
          (sample.service (Return fal_client.Completed)
             (Return sample.no_images))
          7
          {[ 7 := sample.job 1 "completed"
                    (Some "https://fal.media/out.jpeg") ]}
          sample.alice).1.2
  /\ models.status
     <$> (main.check_job_status (Some "fal-key")
            (sample.service (Return fal_client.Completed)
               (Return sample.no_images))
            7
            {[ 7 := sample.job 1 "completed"
                      (Some "https://fal.media/out.jpeg") ]}
            sample.alice).1.2 !! 7
     = Some "failed".
Proof.
  assert (completed_has_result
            {[ 7 := sample.job 1 "completed"
                      (Some "https://fal.media/out.jpeg") ]}) as Hdb.
  { intros k row [<- <-]%lookup_singleton_Some _. by eexists. }
  split; [exact Hdb |]. split; [| reflexivity].
  apply (on_demand_check_keeps_completed_with_result (Some "fal-key")
           (sample.service (Return fal_client.Completed)
              (Return sample.no_images))
           7 _ sample.alice Hdb).
Defined.

(** ** What job creation stores *)

Section create_job_row.

Variable FAL_API_KEY : option string.
Variable b64encode : bytes -> string.
Variable Image_open_size : bytes -> outcome (Z * Z).

(** The next primary key is above every key in use. *)
Lemma next_id_above (db : Table) k :
  is_Some (db !! k) -> k < next_id db.
Proof.
  unfold next_id. revert k.
  apply (map_fold_weak_ind
           (fun r (m : Table) => forall k, is_Some (m !! k) -> k < r)).
  - intros k [? H]. by rewrite lookup_empty in H.
  - intros i x m r _ IH k Hk.
    destruct (decide (k = i)) as [->|Hne]; [lia |].
    rewrite lookup_insert_ne in Hk by done. specialize (IH k Hk). lia.
Qed.

Lemma next_id_fresh (db : Table) : db !! next_id db = None.
Proof.
  destruct (db !! next_id db) eqn:H; [| done].
  pose proof (next_id_above db (next_id db) ltac:(by eexists)). lia.
Qed.

Lemma submit_fal_job_endpoint c prompt image_bytes log fal_response :
  fal_api.submit_fal_job FAL_API_KEY b64encode c prompt image_bytes
  = (log, Return fal_response) ->
  truthy FAL_API_KEY = true
  /\ log = [SubmitRequest (fal_api.submitted_application fal_response)]
  /\ fal_api.submitted_application fal_response
     = (if truthy_bytes image_bytes
        then "fal-ai/nano-banana/edit" else "fal-ai/nano-banana").
Proof.
  unfold fal_api.submit_fal_job.
  destruct (truthy FAL_API_KEY); [| discriminate]. simpl.
  destruct image_bytes as [[|byte image_bytes]|]; simpl;
    match goal with
    | |- context [fal_client.submit ?c ?e ?a] =>
        destruct (fal_client.submit c e a)
    end; intros [= <- <-]; done.
Qed.

(** What [submit_and_store] leaves when it answers with a success. The
    row holds the strength of the request if image bytes were passed on,
    and the default of the column otherwise. *)
Lemma submit_and_store_success c prompt image_bytes image_url strength
    (db : Table) user response :
  let r :=
    main.submit_and_store FAL_API_KEY b64encode c prompt image_bytes
      image_url strength db user in
  r.1.2 = Return response ->
  schemas.success response = true ->
  exists request_id,
    let endpoint :=
      if truthy_bytes image_bytes
      then "fal-ai/nano-banana/edit" else "fal-ai/nano-banana" in
    let new_job :=
      {| models.prompt := prompt;
         models.image_url := image_url;
         models.result_url := None;
         models.status := "pending";
         models.application := Some endpoint;
         models.fal_request_id := Some request_id;
         models.owner_id := models.id user;
         models.strength :=
           Some (if truthy_bytes image_bytes
                 then strength else 0x1.6666666666666p-1%float) |} in
    r = ([SubmitRequest endpoint],
         <[next_id db := new_job]> db,
         Return {| schemas.success := true;
                   schemas.message := "Job created successfully";
                   schemas.data := Some (next_id db, new_job) |},
         Some {| main.task_job_id := next_id db;
                 main.task_request_id := request_id;
                 main.task_application := Some endpoint |}).
Proof.
  unfold main.submit_and_store.
  destruct (fal_api.submit_fal_job FAL_API_KEY b64encode c prompt
              image_bytes) as [log [fal_response|e]] eqn:Hsubmit; simpl;
    [| by intros [= <-]].
  destruct (submit_fal_job_endpoint _ _ _ _ _ Hsubmit)
    as (_ & -> & Hendpoint).
  intros _ _. exists (fal_api.request_id fal_response).
  rewrite Hendpoint. unfold models.inserted. simpl.
  by destruct (truthy_bytes image_bytes).
Qed.

(** Every success of [create_job] is a success of [submit_and_store], on
    the bytes and the url of the attached upload. *)
Lemma create_job_success c prompt image strength (db : Table) user
    response :
  (main.create_job FAL_API_KEY b64encode Image_open_size c prompt image
     strength db user).1.2 = Return response ->
  schemas.success response = true ->
  main.create_job FAL_API_KEY b64encode Image_open_size c prompt image
    strength db user
  = main.submit_and_store FAL_API_KEY b64encode c prompt
      (main.file <$> attached image)
      ((fun upload =>
          "data:image/jpeg;base64," +:+ b64encode (main.file upload))
       <$> attached image)
      strength db user
  /\ forall upload,
       attached image = Some upload ->
       acceptable Image_open_size upload = true.
Proof.
  unfold main.create_job.
  destruct image as [image|]; [| done]. simpl.
  destruct (negb (String.eqb (main.filename image) "")) eqn:Hname;
    [| done].
  destruct (main.content_type image) as [content_type|] eqn:Hheader;
    [| discriminate].
  destruct (String.prefix "image/" content_type) eqn:Htype;
    simpl; [| by intros [= <-]].
  destruct (Z.of_nat (length (main.file image)) >? 10 * 1024 * 1024)
    eqn:Hsize; [by intros [= <-] |].
  destruct (Image_open_size (main.file image)) as [[width height]|e]
    eqn:Hopen; [| by intros [= <-]].
  destruct ((width <? 64) || (height <? 64)) eqn:Hsmall;
    [by intros [= <-] |].
  destruct ((width >? 4096) || (height >? 4096)) eqn:Hlarge;
    [by intros [= <-] |].
  intros _ _. split; [done |].
  intros upload [= <-]. unfold acceptable. rewrite Hheader, Htype, Hopen.
  apply orb_false_elim in Hsmall as [? ?], Hlarge as [? ?].
  repeat (apply andb_true_intro; split); lia.
Qed.

End create_job_row.



(** A [create_job] that answers with a failure returns the table it was
    given. *)
Lemma create_job_failure_table
    (FAL_API_KEY : option string) (b64encode : bytes -> string)
    (Image_open_size : bytes -> outcome (Z * Z)) (c : fal_client.Client)
    (prompt : string) (image : option main.UploadFile) (strength : float)
    (db : Table) (user : models.User) :
  nothing_created db
    (main.create_job FAL_API_KEY b64encode Image_open_size c prompt image
       strength db user).
Proof.
  pose proof (fun bytes url =>
                proj1 (submit_and_store_spec FAL_API_KEY b64encode c prompt
                         bytes url strength db user)) as Hstore.
  pose proof (fun message H => proj2 (proj2 (rejected_spec message db H)))
    as Hrejected.
  unfold main.create_job.
  destruct image as [image|]; [| apply Hstore].
  destruct (negb (String.eqb (main.filename image) "")); [| apply Hstore].
  destruct (main.content_type image) as [content_type|];
    [| by intros response [=]].
  destruct (String.prefix "image/" content_type); simpl;
    [| by apply Hrejected].
  destruct (Z.of_nat (length (main.file image)) >? 10 * 1024 * 1024);
    [by apply Hrejected |].
  destruct (Image_open_size (main.file image)) as [[width height]|e];
    [| by apply Hrejected].
  destruct ((width <? 64) || (height <? 64)); [by apply Hrejected |].
  destruct ((width >? 4096) || (height >? 4096)); [by apply Hrejected |].
  apply Hstore.
Qed.

(** X8. [create_job] leaves every row of the table as it was. The table
    it returns holds at most one row more: the one the response carries,
    "pending", under a key above every key that was in use. So a table in
    which every "completed" row has a result url stays one. *)
Theorem create_job_keeps_existing_rows
    (FAL_API_KEY : option string) (b64encode : bytes -> string)
    (Image_open_size : bytes -> outcome (Z * Z)) (c : fal_client.Client)
    (prompt : string) (image : option main.UploadFile) (strength : float)
    (db : Table) (user : models.User) :
  exists log db' answer task,
    main.create_job FAL_API_KEY b64encode Image_open_size c prompt image
      strength db user = (log, db', answer, task)
    /\ (forall k job, db !! k = Some job -> db' !! k = Some job)
    /\ (forall k job,
          db' !! k = Some job ->
          db !! k = Some job
          \/ ((exists response,
                 answer = Return response
                 /\ schemas.data response = Some (k, job))
              /\ models.status job = "pending"
              /\ forall k', is_Some (db !! k') -> k' < k))
    /\ (completed_has_result db -> completed_has_result db').
Proof.
  destruct (main.create_job FAL_API_KEY b64encode Image_open_size c prompt
              image strength db user) as [[[log db'] answer] task] eqn:Heq.
  exists log, db', answer, task. split; [done |].
  assert (db' = db ->
          (forall k job, db !! k = Some job -> db' !! k = Some job)
          /\ (forall k job,
                db' !! k = Some job ->
                db !! k = Some job
                \/ ((exists response,
                       answer = Return response
                       /\ schemas.data response = Some (k, job))
                    /\ models.status job = "pending"
                    /\ forall k', is_Some (db !! k') -> k' < k))
          /\ (completed_has_result db -> completed_has_result db'))
    as Hsame.
  { intros ->. split; [done |]. split; [by left | done]. }
  destruct answer as [response|e].
  - destruct (schemas.success response) eqn:Hsuccess.
    + destruct (create_job_success FAL_API_KEY b64encode Image_open_size c
                  prompt image strength db user response) as [Hstore _];
        [by rewrite Heq | done |].
      rewrite Hstore in Heq.
      destruct (submit_and_store_success FAL_API_KEY b64encode c prompt
                  (main.file <$> attached image)
                  ((fun upload =>
                      "data:image/jpeg;base64,"
                      +:+ b64encode (main.file upload)) <$> attached image)
                  strength db user response) as (request_id & Hstored);
        [by rewrite Heq | done |].
      cbv zeta in Hstored. rewrite Hstored in Heq.
      injection Heq as <- <- <- <-.
      split; [| split].
      * intros k job Hk. rewrite lookup_insert_ne; [done |].
        intros <-. by rewrite next_id_fresh in Hk.
      * intros k job Hk.
        destruct (decide (k = next_id db)) as [->|Hne].
        -- rewrite lookup_insert_eq in Hk. injection Hk as <-. right.
           split; [by eexists |]. split; [done |]. apply next_id_above.
        -- rewrite lookup_insert_ne in Hk by done. by left.
      * intros Hdb k job Hk Hcompleted.
        destruct (decide (k = next_id db)) as [->|Hne].
        -- rewrite lookup_insert_eq in Hk. by injection Hk as <-.
        -- rewrite lookup_insert_ne in Hk by done. by apply (Hdb k).
    + pose proof (create_job_failure_table FAL_API_KEY b64encode
                    Image_open_size c prompt image strength db user) as Hnone.
      rewrite Heq in Hnone.
      destruct (Hnone response eq_refl Hsuccess) as [[Hdb _] _].
      by apply Hsame.
  - destruct (create_job_raises FAL_API_KEY b64encode Image_open_size c
                prompt image strength db user e) as [Hraised _];
      [by rewrite Heq |].
    rewrite Heq in Hraised. injection Hraised as _ Hdb _ _.
    by apply Hsame.
Qed.

(** ** Reading back what was created *)

(** In a list that is strictly newest-first, a row with the largest key is
    the head. *)
Lemma newest_first_head (rows : list schemas.JobOut) row :
  StronglySorted newer rows ->
  row ∈ rows ->
  (forall other, other ∈ rows -> other.1 <= row.1) ->
  exists rest, rows = row :: rest.
Proof.
  intros Hsorted Hrow Hmax. destruct rows as [|first rest].
  - by apply elem_of_nil in Hrow.
  - apply StronglySorted_cons in Hsorted as [Hfirst _].
    apply elem_of_cons in Hrow as [->|Hrest]; [by exists rest |].
    rewrite Forall_forall in Hfirst. specialize (Hfirst row Hrest).
    unfold newer in Hfirst.
    specialize (Hmax first ltac:(left)). lia.
Qed.

(** X9. After a [create_job] that answered with a success, the requester
    reads the job back: [get_job] returns the stored row, the status check
    answers "pending" without contacting the service or changing the
    table, and the job is the first row of page 1 of the requester's list.
    Another user asking for the same id gets "Job not found". *)
Theorem created_job_is_readable
    (FAL_API_KEY : option string) (b64encode : bytes -> string)
    (Image_open_size : bytes -> outcome (Z * Z)) (c : fal_client.Client)
    (prompt : string) (image : option main.UploadFile) (strength : float)
    (db : Table) (user : models.User)
    (response : schemas.BaseResponse schemas.JobOut) :
  (main.create_job FAL_API_KEY b64encode Image_open_size c prompt image
     strength db user).1.2 = Return response ->
  schemas.success response = true ->
  exists id job,
    let created :=
      main.create_job FAL_API_KEY b64encode Image_open_size c prompt image
        strength db user in
    schemas.data response = Some (id, job)
    /\ main.get_job id created.1.1.2 user
       = {| schemas.success := true;
            schemas.message := "Job retrieved successfully";
            schemas.data := Some (id, job) |}
    /\ models.status job = "pending"
    /\ (forall later_key later_service,
          main.check_job_status later_key later_service id created.1.1.2 user
          = ([], created.1.1.2, main.status_response id job None))
    /\ (forall other,
          models.id other <> models.id user ->
          main.get_job id created.1.1.2 other = main.not_found)
    /\ (forall limit,
          1 <= limit ->
          exists rest,
            schemas.data (main.list_jobs 1 limit created.1.1.2 user)
            = Some ((id, job) :: rest)).
Proof.
  intros Hreturned Hsuccess.
  destruct (create_job_success FAL_API_KEY b64encode Image_open_size c
              prompt image strength db user response Hreturned Hsuccess)
    as [Heq _].
  rewrite Heq in Hreturned.
  destruct (submit_and_store_success FAL_API_KEY b64encode c prompt
              (main.file <$> attached image)
              ((fun upload =>
                  "data:image/jpeg;base64," +:+ b64encode (main.file upload))
               <$> attached image)
              strength db user response Hreturned Hsuccess)
    as (request_id & Hstored).
  cbv zeta in Hstored |- *. rewrite Hstored in Hreturned.
  injection Hreturned as <-. rewrite Heq, Hstored. simpl.
  set (job := {| models.prompt := prompt |}).
  set (db' := <[next_id db := job]> db).
  assert (db' !! next_id db = Some job) as Hjob by apply lookup_insert_eq.
  assert (main.query_owned db' (next_id db) user = Some job) as Hq
    by by apply query_owned_Some.
  exists (next_id db), job. split; [done |]. split.
  { unfold main.get_job. by rewrite Hq. }
  split; [done |]. split.
  { intros later_key later_service.
    by apply on_demand_skips. }
  split.
  { intros other Hother. unfold main.get_job.
    assert (main.query_owned db' (next_id db) other = None) as ->; [| done].
    apply query_owned_None. intros job' Hjob'.
    rewrite Hjob in Hjob'. by injection Hjob' as <-. }
  intros limit Hlimit.
  destruct (owned_rows_sorted db' user) as [Hsorted Hrows].
  cbv zeta in Hsorted, Hrows.
  unfold main.list_jobs. simpl.
  destruct (newest_first_head _ (next_id db, job) Hsorted) as [rest ->].
  - by apply Hrows.
  - intros [k other] [Hk _]%Hrows. simpl in *.
    destruct (decide (k = next_id db)) as [->|Hne]; [done |].
    unfold db' in Hk. rewrite lookup_insert_ne in Hk by done.
    pose proof (next_id_above db k ltac:(by eexists)). lia.
  - destruct (Z.to_nat limit) as [|n] eqn:Hn; [lia |].
    by exists (take n rest).
Qed.

Lemma created_job_is_readable_witness :
  exists id job,
    let created :=
      main.create_job (Some "fal-key") sample.b64 sample.unreadable
        (sample.service (Return fal_client.Queued)
           (Raise (Error "not ready")))
        "a red bicycle" None 1%float
        {[ 7 := sample.job 1 "failed" None ]} sample.alice in
    created.1.2
    = Return {| schemas.success := true;
                schemas.message := "Job created successfully";
                schemas.data := Some (id, job) |}
    /\ main.get_job id created.1.1.2 sample.alice
       = {| schemas.success := true;
            schemas.message := "Job retrieved successfully";
            schemas.data := Some (id, job) |}
    /\ models.status job = "pending"
    /\ main.get_job id created.1.1.2 sample.bob = main.not_found
    /\ exists rest,
         schemas.data (main.list_jobs 1 20 created.1.1.2 sample.alice)
         = Some ((id, job) :: rest).
Proof.
  edestruct (created_job_is_readable (Some "fal-key") sample.b64
               sample.unreadable
               (sample.service (Return fal_client.Queued)
                  (Raise (Error "not ready")))
               "a red bicycle" None 1%float
               {[ 7 := sample.job 1 "failed" None ]} sample.alice)
    as (id & job & Hdata & Hget & Hstatus & _ & Hother & Hlist);
    [reflexivity | reflexivity |].
  exists id, job. cbv zeta in *. simpl in Hdata. injection Hdata as <- <-.
  split; [reflexivity |].
  split; [exact Hget |]. split; [exact Hstatus |].
  split; [apply Hother; simpl; lia | apply Hlist; lia].
Defined.

(** ** Failures of job creation *)

Section create_job_failures.

Variable FAL_API_KEY : option string.
Variable b64encode : bytes -> string.
Variable Image_open_size : bytes -> outcome (Z * Z).

Lemma attached_Some image upload :
  attached image = Some upload <->
  image = Some upload /\ String.eqb (main.filename upload) "" = false.
Proof.
  unfold attached. destruct image as [image|]; [| by split; [| intros []]].
  destruct (String.eqb (main.filename image) "") eqn:Hname; simpl.
  - split; [done |]. intros [[= ->] ?]. congruence.
  - split; [by intros [= ->] |]. by intros [[= ->] _].
Qed.

(** An upload that is not acceptable ends the call before anything is
    sent or stored, and no response to it says success. *)
Lemma create_job_unacceptable c prompt image strength (db : Table) user
    upload :
  attached image = Some upload ->
  acceptable Image_open_size upload = false ->
  let r :=
    main.create_job FAL_API_KEY b64encode Image_open_size c prompt image
      strength db user in
  r.1.1.1 = [] /\ r.1.1.2 = db /\ r.2 = None
  /\ forall response, r.1.2 = Return response ->
                      schemas.success response = false.
Proof.
  intros [-> Hname]%attached_Some. unfold acceptable, main.create_job.
  rewrite Hname. simpl.
  destruct (main.content_type upload) as [content_type|]; [| done].
  destruct (String.prefix "image/" content_type); simpl;
    [| by intros _; repeat split; try done; intros ? [= <-]].
  destruct (Z.of_nat (length (main.file upload)) >? 10 * 1024 * 1024)
    eqn:Hsize;
    [by intros _; repeat split; try done; intros ? [= <-] |].
  destruct (Image_open_size (main.file upload)) as [[width height]|e];
    [| by intros _; repeat split; try done; intros ? [= <-]].
  destruct ((width <? 64) || (height <? 64)) eqn:Hsmall;
    [by intros _; repeat split; try done; intros ? [= <-] |].
  destruct ((width >? 4096) || (height >? 4096)) eqn:Hlarge;
    [by intros _; repeat split; try done; intros ? [= <-] |].
  apply orb_false_elim in Hsmall as [? ?], Hlarge as [? ?].
  intros Hbad. exfalso. revert Hbad. apply not_false_iff_true.
  repeat (apply andb_true_intro; split); lia.
Qed.

(** Without the key nothing is sent. *)
Lemma create_job_unconfigured c prompt image strength (db : Table) user :
  truthy FAL_API_KEY = false ->
  let r :=
    main.create_job FAL_API_KEY b64encode Image_open_size c prompt image
      strength db user in
  r.1.1.1 = []
  /\ forall response, r.1.2 = Return response ->
                      schemas.success response = false.
Proof.
  intros Hkey.
  assert (forall bytes url,
            let r :=
              main.submit_and_store FAL_API_KEY b64encode c prompt bytes url
                strength db user in
            r.1.1.1 = []
            /\ forall response, r.1.2 = Return response ->
                                schemas.success response = false)
    as Hstore.
  { intros bytes url. unfold main.submit_and_store.
    rewrite (submit_fal_job_unconfigured FAL_API_KEY b64encode c prompt
               bytes Hkey). simpl.
    split; [done |]. by intros ? [= <-]. }
  unfold main.create_job.
  destruct image as [image|]; [| apply Hstore].
  destruct (negb (String.eqb (main.filename image) "")); [| apply Hstore].
  destruct (main.content_type image) as [content_type|]; [| done].
  destruct (negb (String.prefix "image/" content_type));
    [by split; [| intros ? [= <-]] |].
  destruct (Z.of_nat (length (main.file image)) >? 10 * 1024 * 1024);
    [by split; [| intros ? [= <-]] |].
  destruct (Image_open_size (main.file image)) as [[width height]|e];
    [| by split; [| intros ? [= <-]]].
  destruct ((width <? 64) || (height <? 64));
    [by split; [| intros ? [= <-]] |].
  destruct ((width >? 4096) || (height >? 4096));
    [by split; [| intros ? [= <-]] |].
  apply Hstore.
Qed.

End create_job_failures.

(** X20. How [create_job] fails. It leaves by an exception exactly when
    the request has an upload with a file name and without a content
    type: the exception is the [AttributeError] of [startswith], and
    nothing was sent or stored. Otherwise it returns a response, and a
    response that says failure comes with a message, no data, the table as
    it was and no monitor scheduled. An upload that is not acceptable is
    turned down before anything is sent; without the key nothing is sent
    and no response says success; and no response says success when the
    submission raised. *)
Theorem create_job_failure_leaves_no_row
    (FAL_API_KEY : option string) (b64encode : bytes -> string)
    (Image_open_size : bytes -> outcome (Z * Z)) (c : fal_client.Client)
    (prompt : string) (image : option main.UploadFile) (strength : float)
    (db : Table) (user : models.User) :
  exists log db' answer task,
    main.create_job FAL_API_KEY b64encode Image_open_size c prompt image
      strength db user = (log, db', answer, task)
    /\ ((exists e, answer = Raise e) <->
        exists upload,
          attached image = Some upload /\ main.content_type upload = None)
    /\ (forall e,
          answer = Raise e ->
          e = Error "'NoneType' object has no attribute 'startswith'"
          /\ log = [] /\ db' = db /\ task = None)
    /\ (forall response,
          answer = Return response ->
          schemas.success response = false ->
          db' = db /\ task = None /\ schemas.data response = None
          /\ schemas.message response <> "")
    /\ (forall upload,
          attached image = Some upload ->
          acceptable Image_open_size upload = false ->
          log = [] /\ db' = db /\ task = None
          /\ forall response,
               answer = Return response -> schemas.success response = false)
    /\ (truthy FAL_API_KEY = false ->
        log = [] /\ db' = db /\ task = None
        /\ forall response,
             answer = Return response -> schemas.success response = false)
    /\ (forall submit_log e,
          fal_api.submit_fal_job FAL_API_KEY b64encode c prompt
            (main.file <$> attached image) = (submit_log, Raise e) ->
          db' = db /\ task = None
          /\ forall response,
               answer = Return response -> schemas.success response = false).
Proof.
  pose proof (create_job_raises FAL_API_KEY b64encode Image_open_size c
                prompt image strength db user) as Hraises.
  pose proof (create_job_failure_table FAL_API_KEY b64encode Image_open_size
                c prompt image strength db user) as Hfailure.
  pose proof (create_job_unacceptable FAL_API_KEY b64encode Image_open_size
                c prompt image strength db user) as Hunacceptable.
  pose proof (create_job_unconfigured FAL_API_KEY b64encode Image_open_size
                c prompt image strength db user) as Hunconfigured.
  pose proof (create_job_success FAL_API_KEY b64encode Image_open_size c
                prompt image strength db user) as Hsuccess.
  destruct (main.create_job FAL_API_KEY b64encode Image_open_size c prompt
              image strength db user) as [[[log db'] answer] task] eqn:Heq.
  unfold nothing_created, nothing_stored in Hfailure.
  cbv zeta in Hunacceptable, Hunconfigured.
  simpl in Hraises, Hfailure, Hunacceptable, Hunconfigured, Hsuccess.
  assert ((forall response,
             answer = Return response -> schemas.success response = false) ->
          db' = db /\ task = None) as Hnothing.
  { intros Hfalse. destruct answer as [response|e].
    - destruct (Hfailure response eq_refl (Hfalse response eq_refl))
        as [[? ?] _]. done.
    - destruct (Hraises e eq_refl) as [[= _ ? _ ?] _]. done. }
  exists log, db', answer, task. split; [done |]. split.
  { split.
    - intros [e ->]. by destruct (Hraises e eq_refl) as [_ ?].
    - intros (upload & Hup & Htype).
      destruct (Hunacceptable upload Hup) as (_ & _ & _ & Hfalse).
      { unfold acceptable. by rewrite Htype. }
      destruct answer as [response|e]; [| by exists e]. exfalso.
      apply attached_Some in Hup as [-> Hname].
      unfold main.create_job in Heq. rewrite Hname, Htype in Heq.
      discriminate Heq. }
  split.
  { intros e ->. destruct (Hraises e eq_refl) as [[= Hlog Hdb He Htask] _].
    by rewrite Hlog, Hdb, He, Htask. }
  split.
  { intros response -> Hfalse.
    by destruct (Hfailure response eq_refl Hfalse) as [[? ?] [? ?]]. }
  split.
  { intros upload Hup Hbad.
    by destruct (Hunacceptable upload Hup Hbad) as (? & ? & ? & ?). }
  split.
  { intros Hkey. destruct (Hunconfigured Hkey) as [Hlog Hfalse].
    destruct (Hnothing Hfalse) as [? ?]. done. }
  intros submit_log e Hsubmit.
  assert (forall response,
            answer = Return response -> schemas.success response = false)
    as Hfalse.
  { intros response ->.
    destruct (schemas.success response) eqn:Hs; [exfalso | done].
    destruct (Hsuccess response eq_refl Hs) as [Hstore _].
    unfold main.submit_and_store in Hstore. rewrite Hsubmit in Hstore.
    injection Hstore as _ _ Hresponse _. rewrite Hresponse in Hs.
    discriminate Hs. }
  destruct (Hnothing Hfalse) as [? ?]. done.
Qed.

(** A request the service cannot take, and a request with a 50x50
    picture: both are answered with a failure, and the table is as it
    was. *)
Example create_job_failures_sample :
  main.create_job (Some "fal-key") sample.b64 sample.unreadable
    sample.unreachable "a red bicycle" None 1%float
    {[ 7 := sample.job 1 "pending" None ]} sample.alice
  = ([SubmitRequest "fal-ai/nano-banana"],
     {[ 7 := sample.job 1 "pending" None ]},
     Return {| schemas.success := false;
               schemas.message :=
                 "Failed to create job: 500: Failed to submit job to AI "
                 +:+ "service: connection refused";
               schemas.data := None |},
     None)
  /\ main.create_job None sample.b64 (sample.sized 50 50)
       sample.unreachable "make it blue"
       (Some {| main.filename := "cat.png";
                main.content_type := Some "image/png";
                main.file := [Byte.x89; Byte.x50] |})
       1%float {[ 7 := sample.job 1 "pending" None ]} sample.alice
     = ([], {[ 7 := sample.job 1 "pending" None ]},
        Return {| schemas.success := false;
                  schemas.message := "Image too small (min 64x64 pixels)";
                  schemas.data := None |},
        None).
Proof. by vm_compute. Qed.

(** ** Pages *)

Section pages.

Variable db : Table.
Variable user : models.User.
Variable limit : Z.
Hypothesis limit_positive : 1 <= limit.

Lemma newest_first_NoDup (rows : list schemas.JobOut) :
  StronglySorted newer rows -> NoDup rows.
Proof.
  induction 1 as [|row rows _ IH Hall]; constructor; [| done].
  intros Hin. rewrite Forall_forall in Hall.
  specialize (Hall row Hin). unfold newer in Hall. lia.
Qed.

Lemma newest_first_lookup (rows : list schemas.JobOut) i j a b :
  StronglySorted newer rows ->
  (i < j)%nat -> rows !! i = Some a -> rows !! j = Some b -> newer a b.
Proof.
  intros Hsorted Hij Ha Hb. rewrite <- (take_drop j rows) in Hsorted.
  apply (StronglySorted_app_1_elem_of _ _ _ _ _ Hsorted).
  - apply elem_of_take. by exists i.
  - apply list_elem_of_lookup. exists 0%nat.
    by rewrite lookup_drop, Nat.add_0_r.
Qed.

Lemma owned_rows_spec :
  StronglySorted newer (owned_rows db user)
  /\ forall row,
       row ∈ owned_rows db user <->
       db !! row.1 = Some row.2 /\ models.owner_id row.2 = models.id user.
Proof. exact (owned_rows_sorted db user). Qed.

(** Page [page] is the slice of [limit] rows that starts after the
    [page - 1] pages before it. *)
Lemma list_jobs_page page :
  1 <= page ->
  schemas.data (main.list_jobs page limit db user)
  = Some (take (Z.to_nat limit)
            (drop (Z.to_nat (page - 1) * Z.to_nat limit)
               (owned_rows db user))).
Proof.
  intros Hpage. unfold main.list_jobs, owned_rows. simpl.
  by rewrite Z2Nat.inj_mul by lia.
Qed.

Lemma listed_index page row :
  1 <= page ->
  listed page limit db user row <->
  exists i,
    owned_rows db user !! i = Some row
    /\ (Z.to_nat (page - 1) * Z.to_nat limit <= i
        < Z.to_nat (page - 1) * Z.to_nat limit + Z.to_nat limit)%nat.
Proof.
  intros Hpage. unfold listed. rewrite (list_jobs_page page Hpage). split.
  - intros (rows & [= <-] & Hrow).
    apply elem_of_take in Hrow as (j & Hj & Hlt).
    rewrite lookup_drop in Hj. eexists. split; [exact Hj | lia].
  - intros (i & Hi & Hrange). eexists. split; [done |].
    apply elem_of_take.
    exists (i - Z.to_nat (page - 1) * Z.to_nat limit)%nat.
    rewrite lookup_drop. split; [| lia].
    by replace (Z.to_nat (page - 1) * Z.to_nat limit
                + (i - Z.to_nat (page - 1) * Z.to_nat limit))%nat
      with i by lia.
Qed.

(** A row of the list is on the page its rank puts it on. *)
Lemma listed_of_rank i row :
  owned_rows db user !! i = Some row ->
  listed (Z.of_nat (i / Z.to_nat limit) + 1) limit db user row.
Proof.
  intros Hi. apply listed_index; [lia |]. exists i. split; [done |].
  replace (Z.to_nat (Z.of_nat (i / Z.to_nat limit) + 1 - 1))
    with (i / Z.to_nat limit)%nat by lia.
  assert (Z.to_nat limit <> 0)%nat as Hpos by lia.
  pose proof (Nat.div_mod_eq i (Z.to_nat limit)) as Hdiv.
  pose proof (Nat.mod_upper_bound i (Z.to_nat limit) Hpos) as Hmod.
  lia.
Qed.

Lemma listed_owned page row :
  1 <= page ->
  listed page limit db user row -> row ∈ owned_rows db user.
Proof.
  intros Hpage (i & Hi & _)%listed_index; [| done].
  by apply list_elem_of_lookup_2 in Hi.
Qed.

Lemma listed_unique page page' row :
  1 <= page -> 1 <= page' ->
  listed page limit db user row -> listed page' limit db user row ->
  page = page'.
Proof.
  intros Hpage Hpage' (i & Hi & Hrange)%listed_index
    (j & Hj & Hrange')%listed_index; [| done | done].
  destruct owned_rows_spec as [Hsorted _].
  pose proof (NoDup_lookup _ _ _ _ (newest_first_NoDup _ Hsorted) Hi Hj)
    as <-.
  assert (Z.to_nat (page - 1) = Z.to_nat (page' - 1)); [nia | lia].
Qed.

End pages.

(** X10. For any page size of at least 1, the pages of a user's list
    partition the user's jobs. Every page is a run of at most [limit] rows
    of the user, strictly newest first; every job of the user is on some
    page, and on one page only; and a page that is followed by a page with
    a row on it is full, each of its rows newer than that row. *)
Theorem list_jobs_pages_partition
    (limit : Z) (db : Table) (user : models.User) :
  1 <= limit ->
  (forall page,
     1 <= page ->
     exists rows,
       schemas.data (main.list_jobs page limit db user) = Some rows
       /\ (length rows <= Z.to_nat limit)%nat
       /\ StronglySorted newer rows
       /\ Forall (fun row : schemas.JobOut =>
                    db !! row.1 = Some row.2
                    /\ models.owner_id row.2 = models.id user) rows)
  /\ (forall id job,
        db !! id = Some job ->
        models.owner_id job = models.id user ->
        exists page, 1 <= page /\ listed page limit db user (id, job))
  /\ (forall page page' row,
        1 <= page -> 1 <= page' ->
        listed page limit db user row ->
        listed page' limit db user row ->
        page = page')
  /\ (forall page row,
        1 <= page ->
        listed (page + 1) limit db user row ->
        exists rows,
          schemas.data (main.list_jobs page limit db user) = Some rows
          /\ length rows = Z.to_nat limit
          /\ Forall (fun earlier => newer earlier row) rows).
Proof.
  intros Hlimit.
  destruct (owned_rows_spec db user) as [Hsorted Hrows].
  split; [| split; [| split]].
  - intros page Hpage. eexists.
    split; [apply (list_jobs_page db user limit Hlimit page Hpage) |].
    split; [rewrite length_take; lia |]. split.
    + rewrite <- (take_drop (Z.to_nat (page - 1) * Z.to_nat limit)
                   (owned_rows db user)) in Hsorted.
      apply StronglySorted_app_1_r in Hsorted.
      rewrite <- (take_drop (Z.to_nat limit)
                   (drop _ (owned_rows db user))) in Hsorted.
      by apply StronglySorted_app_1_l in Hsorted.
    + apply Forall_take, Forall_drop, Forall_forall.
      intros row Hrow. by apply Hrows.
  - intros id job Hjob Howner.
    assert ((id, job) ∈ owned_rows db user) as Hin by by apply Hrows.
    apply list_elem_of_lookup in Hin as [i Hi]. eexists.
    split; [| exact (listed_of_rank db user limit Hlimit i _ Hi)]. lia.
  - intros page page' row. apply (listed_unique db user limit Hlimit).
  - intros page row Hpage (j & Hj & Hrange)%listed_index; [| lia | lia].
    replace (Z.to_nat (page + 1 - 1)) with (S (Z.to_nat (page - 1)))
      in Hrange by lia.
    pose proof (lookup_lt_Some _ _ _ Hj) as Hlength.
    eexists. split; [apply (list_jobs_page db user limit Hlimit page Hpage) |].
    split; [rewrite length_take, length_drop; lia |].
    apply Forall_forall. intros earlier Hearlier.
    apply elem_of_take in Hearlier as (i & Hi & Hlt).
    rewrite lookup_drop in Hi.
    apply (newest_first_lookup _
             (Z.to_nat (page - 1) * Z.to_nat limit + i) j _ _ Hsorted);
      [lia | exact Hi | exact Hj].
Qed.

Lemma list_jobs_pages_partition_witness :
  (exists rows,
     schemas.data
       (main.list_jobs 2 2
          {[ 3 := sample.job 1 "pending" None;
             4 := sample.job 2 "pending" None;
             5 := sample.job 1 "failed" None;
             9 := sample.job 1 "processing" None ]} sample.alice)
     = Some rows
     /\ (length rows <= Z.to_nat 2)%nat
     /\ StronglySorted newer rows
     /\ Forall (fun row : schemas.JobOut =>
                  ({[ 3 := sample.job 1 "pending" None;
                      4 := sample.job 2 "pending" None;
                      5 := sample.job 1 "failed" None;
                      9 := sample.job 1 "processing" None ]} : Table)
                  !! row.1 = Some row.2
                  /\ models.owner_id row.2 = models.id sample.alice) rows)
  /\ exists page,
       1 <= page
       /\ listed page 2
            {[ 3 := sample.job 1 "pending" None;
               4 := sample.job 2 "pending" None;
               5 := sample.job 1 "failed" None;
               9 := sample.job 1 "processing" None ]} sample.alice
            (3, sample.job 1 "pending" None).
Proof.
  destruct (list_jobs_pages_partition 2
              {[ 3 := sample.job 1 "pending" None;
                 4 := sample.job 2 "pending" None;
                 5 := sample.job 1 "failed" None;
                 9 := sample.job 1 "processing" None ]} sample.alice)
    as (Hpage & Hcover & _); [lia |].
  split; [apply Hpage; lia |].
  apply Hcover; reflexivity.
Defined.

(** X11. [get_job] and [list_jobs] show the same jobs: [get_job] returns a
    row for an id exactly when that row, under that id, is on some page of
    the requester's list. *)
Theorem get_job_agrees_with_list_jobs
    (limit : Z) (job_id : Z) (db : Table) (user : models.User)
    (row : schemas.JobOut) :
  1 <= limit ->
  schemas.data (main.get_job job_id db user) = Some row <->
  row.1 = job_id /\ exists page, 1 <= page /\ listed page limit db user row.
Proof.
  intros Hlimit. destruct (owned_rows_spec db user) as [_ Hrows]. split.
  - unfold main.get_job.
    destruct (main.query_owned db job_id user) as [job|] eqn:Hq;
      [| discriminate].
    intros [= <-]. split; [done |].
    apply query_owned_Some in Hq as [Hjob Howner].
    assert ((job_id, job) ∈ owned_rows db user) as Hin by by apply Hrows.
    apply list_elem_of_lookup in Hin as [i Hi]. eexists.
    split; [| exact (listed_of_rank db user limit Hlimit i _ Hi)]. lia.
  - intros [<- (page & Hpage & Hlisted)].
    apply (listed_owned db user limit Hlimit page row Hpage) in Hlisted.
    apply Hrows in Hlisted as [Hjob Howner].
    unfold main.get_job.
    assert (main.query_owned db row.1 user = Some row.2) as ->
      by by apply query_owned_Some.
    by destruct row.
Qed.

Lemma get_job_agrees_with_list_jobs_witness :
  schemas.data
    (main.get_job 5
       {[ 3 := sample.job 1 "pending" None;
          5 := sample.job 1 "failed" None ]} sample.alice)
  = Some (5, sample.job 1 "failed" None)
  <-> (5, sample.job 1 "failed" None).1 = 5
      /\ exists page,
           1 <= page
           /\ listed page 1
                {[ 3 := sample.job 1 "pending" None;
                   5 := sample.job 1 "failed" None ]} sample.alice
                (5, sample.job 1 "failed" None).
Proof.
  apply (get_job_agrees_with_list_jobs 1 5
           {[ 3 := sample.job 1 "pending" None;
              5 := sample.job 1 "failed" None ]} sample.alice
           (5, sample.job 1 "failed" None)).
  lia.
Defined.

(** ** Accounts *)

Section accounts.

Lemma first_by_email_Some (users : Users) email user :
  first_by_email users email = Some user ->
  models.email user = email /\ exists k, users !! k = Some user.
Proof.
  unfold first_by_email. intros Hfirst.
  apply fmap_Some in Hfirst as ([k u] & Hhead & ->).
  apply head_Some_elem_of, list_elem_of_filter in Hhead as [Hemail Hrow].
  apply elem_of_map_to_list in Hrow. split; [done | by exists k].
Qed.

Lemma first_by_email_None (users : Users) email :
  first_by_email users email = None <->
  forall k user, users !! k = Some user -> models.email user <> email.
Proof.
  unfold first_by_email. rewrite fmap_None, head_None. split.
  - intros Hnil k user Hk Hemail.
    assert ((k, user) ∈ filter (fun row : Z * models.User =>
                                  models.email row.2 = email)
                          (map_to_list users)) as Hin
      by (apply list_elem_of_filter; split;
          [done | by apply elem_of_map_to_list]).
    rewrite Hnil in Hin. by apply elem_of_nil in Hin.
  - intros Hnone.
    destruct (filter _ (map_to_list users)) as [|[k user] rest] eqn:Hfilter;
      [done |].
    assert ((k, user) ∈ filter (fun row : Z * models.User =>
                                  models.email row.2 = email)
                          (map_to_list users)) as Hin
      by (rewrite Hfilter; left).
    apply list_elem_of_filter in Hin as [Hemail Hrow].
    apply elem_of_map_to_list in Hrow. by destruct (Hnone k user Hrow).
Qed.

(** With unique emails, the query finds the row that carries the email. *)
Lemma first_by_email_unique (users : Users) k user :
  unique_emails users ->
  users !! k = Some user ->
  first_by_email users (models.email user) = Some user.
Proof.
  intros Hunique Hk.
  destruct (first_by_email users (models.email user)) as [found|] eqn:Hfirst.
  - apply first_by_email_Some in Hfirst as [Hemail [j Hj]].
    pose proof (Hunique j k found user Hj Hk Hemail) as ->. congruence.
  - rewrite first_by_email_None in Hfirst. by destruct (Hfirst k user Hk).
Qed.

Lemma next_user_id_above (users : Users) k :
  is_Some (users !! k) -> k < next_user_id users.
Proof.
  unfold next_user_id. revert k.
  apply (map_fold_weak_ind
           (fun r (m : Users) => forall k, is_Some (m !! k) -> k < r)).
  - intros k [? H]. by rewrite lookup_empty in H.
  - intros i x m r _ IH k Hk.
    destruct (decide (k = i)) as [->|Hne]; [lia |].
    rewrite lookup_insert_ne in Hk by done. specialize (IH k Hk). lia.
Qed.

Lemma next_user_id_fresh (users : Users) :
  users !! next_user_id users = None.
Proof.
  destruct (users !! next_user_id users) eqn:H; [| done].
  pose proof (next_user_id_above users (next_user_id users)
                ltac:(by eexists)). lia.
Qed.

(** A user added under a fresh key, with an email no row carries, is the
    one the query finds for that email. *)
Lemma first_by_email_insert (users : Users) k user :
  users !! k = None ->
  first_by_email users (models.email user) = None ->
  first_by_email (<[k := user]> users) (models.email user) = Some user.
Proof.
  intros Hfresh Hnone. rewrite first_by_email_None in Hnone.
  destruct (first_by_email (<[k := user]> users) (models.email user))
    as [found|] eqn:Hfirst.
  - apply first_by_email_Some in Hfirst as [Hemail [j Hj]].
    destruct (decide (j = k)) as [->|Hne].
    + rewrite lookup_insert_eq in Hj. congruence.
    + rewrite lookup_insert_ne in Hj by done. by destruct (Hnone j found Hj).
  - rewrite first_by_email_None in Hfirst.
    by destruct (Hfirst k user (lookup_insert_eq _ _ _)).
Qed.

End accounts.

(** [len] counts the characters. *)
Lemma len_characters (s : string) : len s = characters s.
Proof.
  unfold characters. induction s as [|a s IH]; [done |].
  assert (is_continuation_byte a = negb (starts_character a)) as Hbyte
    by (by destruct a as [[] [] [] [] [] [] [] []]).
  simpl. rewrite Hbyte, IH. by destruct (starts_character a).
Qed.

(** A password of three letters with an accent: six bytes, three
    characters. *)
Example len_counts_characters :
  len "ééé" = 3%nat /\ String.length "ééé" = 6%nat
  /\ characters "ééé" = 3%nat /\ len "hunter22" = 8%nat.
Proof. by vm_compute. Qed.

Section register.

Variable is_valid_email : string -> outcome bool.
Variable hash_password : string -> outcome string.
Variable create_access_token : string -> outcome string.

(** The two ways a call of [register] ends: the table as it was and a
    failure, or the new user stored and an answer that depends on the
    token. *)
Lemma register_cases email password (users : Users) :
  (exists message,
     auth.register is_valid_email hash_password create_access_token email
       password users = (users, auth.failure message))
  \/ exists hashed,
       is_valid_email email = Return true
       /\ (6 <= characters password)%nat
       /\ first_by_email users email = None
       /\ hash_password password = Return hashed
       /\ auth.register is_valid_email hash_password create_access_token
            email password users
          = (<[next_user_id users := registered email hashed users]> users,
             match create_access_token email with
             | Return token =>
                 {| schemas.success := true;
                    schemas.message := "User registered successfully";
                    schemas.data :=
                      Some {| auth.access_token := token;
                              auth.token_type := "bearer";
                              auth.user_id := next_user_id users;
                              auth.email := email |} |}
             | Raise e => auth.failure ("Registration failed: " +:+ str e)
             end).
Proof.
  unfold auth.register.
  destruct (is_valid_email email) as [[]|e]; [| by left; eexists ..].
  rewrite len_characters.
  destruct (characters password <? 6)%nat eqn:Hlen; [by left; eexists |].
  destruct (first_by_email users email); [by left; eexists |].
  destruct (hash_password password) as [hashed|e]; [| by left; eexists].
  right. exists hashed. apply Nat.ltb_ge in Hlen.
  do 4 (split; [done |]). simpl.
  by destruct (create_access_token email).
Qed.

End register.

(** X12. [register] changes the table in one way only: it adds, under a
    key that was free, a user with the given email and the hash of the
    password, and only after the email was found valid, the password has 6
    characters or more (characters, not bytes), and no row carries the
    email. A success tells the
    key and email of that user and the token; a failure leaves the table as
    it was, unless it is the token that could not be made, and then the
    user is stored all the same. *)
Theorem register_stores_only_valid_new_users
    (is_valid_email : string -> outcome bool)
    (hash_password : string -> outcome string)
    (create_access_token : string -> outcome string)
    (email password : string) (users : Users) :
  exists users' response,
    auth.register is_valid_email hash_password create_access_token email
      password users = (users', response)
    /\ (users' = users
        \/ exists hashed,
             is_valid_email email = Return true
             /\ (6 <= characters password)%nat
             /\ first_by_email users email = None
             /\ hash_password password = Return hashed
             /\ users !! next_user_id users = None
             /\ users'
                = <[next_user_id users := registered email hashed users]>
                    users)
    /\ (schemas.success response = true ->
        exists token,
          create_access_token email = Return token
          /\ schemas.data response
             = Some {| auth.access_token := token;
                       auth.token_type := "bearer";
                       auth.user_id := next_user_id users;
                       auth.email := email |}
          /\ is_Some (users' !! next_user_id users))
    /\ (schemas.success response = false ->
        schemas.data response = None
        /\ (users' = users
            \/ exists e,
                 create_access_token email = Raise e
                 /\ schemas.message response
                    = "Registration failed: " +:+ str e)).
Proof.
  destruct (register_cases is_valid_email hash_password create_access_token
              email password users)
    as [[message ->] | (hashed & Hvalid & Hlen & Hnew & Hhash & ->)].
  - eexists _, _. split; [done |]. split; [by left |].
    split; [discriminate |]. intros _. split; [done | by left].
  - eexists _, _. split; [done |]. split.
    { right. exists hashed. do 4 (split; [done |]).
      split; [apply next_user_id_fresh | done]. }
    destruct (create_access_token email) as [token|e].
    + split; [| discriminate]. intros _. exists token.
      split; [done |]. split; [done |]. rewrite lookup_insert_eq.
      by eexists.
    + split; [discriminate |]. intros _. split; [done |]. right.
      by exists e.
Qed.

(** A registration that is turned down for its token: the answer is a
    failure, and the user is in the table. *)
Example register_stores_user_before_token :
  auth.register sample_utils.is_valid_email sample_utils.hash_password
    sample_utils.no_tokens "dave@example.org" "hunter22" ∅
  = ({[ 1 := {| models.id := 1;
                models.email := "dave@example.org";
                models.hashed_password := "hashed:hunter22" |} ]},
     auth.failure "Registration failed: signing key missing").
Proof. by vm_compute. Qed.

(** Characters, not bytes: a password of five accented letters takes ten
    bytes and is turned down, and one of six such letters is accepted. *)
Example register_counts_characters :
  auth.register sample_utils.is_valid_email sample_utils.hash_password
    sample_utils.create_access_token "dave@example.org" "ééééé" ∅
  = (∅, auth.failure "Password must be at least 6 characters long")
  /\ schemas.success
       (auth.register sample_utils.is_valid_email sample_utils.hash_password
          sample_utils.create_access_token "dave@example.org" "éééééé" ∅).2
     = true.
Proof. by vm_compute. Qed.

(** X13. [register] keeps emails unique: if no two users of the table
    share an email, no two users of the table it returns do. *)
Theorem register_keeps_emails_unique
    (is_valid_email : string -> outcome bool)
    (hash_password : string -> outcome string)
    (create_access_token : string -> outcome string)
    (email password : string) (users : Users) :
  unique_emails users ->
  unique_emails
    (auth.register is_valid_email hash_password create_access_token email
       password users).1.
Proof.
  intros Hunique.
  destruct (register_cases is_valid_email hash_password create_access_token
              email password users)
    as [[message ->] | (hashed & _ & _ & Hnew & _ & ->)]; [done |].
  simpl. rewrite first_by_email_None in Hnew.
  intros i j u v Hi Hj Hemail.
  destruct (decide (i = next_user_id users)) as [->|Hi'],
      (decide (j = next_user_id users)) as [->|Hj']; [done | | |].
  - rewrite lookup_insert_eq in Hi. injection Hi as <-.
    rewrite lookup_insert_ne in Hj by done.
    by destruct (Hnew j v Hj).
  - rewrite lookup_insert_eq in Hj. injection Hj as <-.
    rewrite lookup_insert_ne in Hi by done.
    by destruct (Hnew i u Hi).
  - rewrite lookup_insert_ne in Hi, Hj by done.
    by apply (Hunique i j u v).
Qed.

Lemma register_keeps_emails_unique_witness :
  unique_emails {[ 4 := sample_utils.carol ]}
  /\ unique_emails
       (auth.register sample_utils.is_valid_email
          sample_utils.hash_password sample_utils.create_access_token
          "dave@example.org" "hunter22" {[ 4 := sample_utils.carol ]}).1
  /\ (auth.register sample_utils.is_valid_email
        sample_utils.hash_password sample_utils.create_access_token
        "dave@example.org" "hunter22" {[ 4 := sample_utils.carol ]}).1
     = {[ 4 := sample_utils.carol;
          5 := {| models.id := 5;
                  models.email := "dave@example.org";
                  models.hashed_password := "hashed:hunter22" |} ]}.
Proof.
  assert (unique_emails {[ 4 := sample_utils.carol ]}) as Hunique.
  { intros i j u v [<- _]%lookup_singleton_Some
      [<- _]%lookup_singleton_Some _. done. }
  split; [exact Hunique |]. split; [| by vm_compute].
  apply (register_keeps_emails_unique sample_utils.is_valid_email
           sample_utils.hash_password sample_utils.create_access_token
           "dave@example.org" "hunter22" _ Hunique).
Defined.

(** X14. After a successful registration, a login with the same email and
    password is not turned down, provided the password checks against the
    hash that was stored: it answers with the key and email of the
    registered user and the token made at login, or, if that token cannot
    be made, with "Login failed". *)
Theorem register_then_login
    (is_valid_email : string -> outcome bool)
    (hash_password : string -> outcome string)
    (verify_password : string -> string -> outcome bool)
    (create_access_token later_token : string -> outcome string)
    (email password : string) (users : Users) :
  schemas.success
    (auth.register is_valid_email hash_password create_access_token email
       password users).2 = true ->
  (forall hashed,
     hash_password password = Return hashed ->
     verify_password password hashed = Return true) ->
  exists registration,
    schemas.data
      (auth.register is_valid_email hash_password create_access_token email
         password users).2 = Some registration
    /\ auth.email registration = email
    /\ auth.login verify_password later_token email password
         (auth.register is_valid_email hash_password create_access_token
            email password users).1
       = match later_token email with
         | Return token =>
             {| schemas.success := true;
                schemas.message := "Login successful";
                schemas.data :=
                  Some {| auth.access_token := token;
                          auth.token_type := "bearer";
                          auth.user_id := auth.user_id registration;
                          auth.email := email |} |}
         | Raise e => auth.failure ("Login failed: " +:+ str e)
         end.
Proof.
  intros Hsuccess Hverify.
  destruct (register_cases is_valid_email hash_password create_access_token
              email password users)
    as [[message Heq] | (hashed & _ & _ & Hnew & Hhash & Heq)];
    rewrite Heq in Hsuccess |- *; simpl in Hsuccess |- *; [discriminate |].
  destruct (create_access_token email) as [token|e]; [| discriminate].
  eexists. split; [reflexivity |]. split; [reflexivity |]. simpl.
  unfold auth.login.
  pose proof (first_by_email_insert users (next_user_id users)
                (registered email hashed users) (next_user_id_fresh users)
                Hnew) as Hfound.
  simpl in Hfound. rewrite Hfound. simpl. rewrite (Hverify hashed Hhash).
  by destruct (later_token email).
Qed.

Lemma register_then_login_witness :
  exists registration,
    schemas.data
      (auth.register sample_utils.is_valid_email sample_utils.hash_password
         sample_utils.create_access_token "dave@example.org" "hunter22"
         {[ 4 := sample_utils.carol ]}).2 = Some registration
    /\ auth.email registration = "dave@example.org"
    /\ auth.login sample_utils.verify_password
         sample_utils.create_access_token "dave@example.org" "hunter22"
         (auth.register sample_utils.is_valid_email
            sample_utils.hash_password sample_utils.create_access_token
            "dave@example.org" "hunter22" {[ 4 := sample_utils.carol ]}).1
       = {| schemas.success := true;
            schemas.message := "Login successful";
            schemas.data :=
              Some {| auth.access_token := "token:dave@example.org";
                      auth.token_type := "bearer";
                      auth.user_id := auth.user_id registration;
                      auth.email := "dave@example.org" |} |}.
Proof.
  apply (register_then_login sample_utils.is_valid_email
           sample_utils.hash_password sample_utils.verify_password
           sample_utils.create_access_token sample_utils.create_access_token
           "dave@example.org" "hunter22" {[ 4 := sample_utils.carol ]}).
  - by vm_compute.
  - intros hashed [= <-]. by vm_compute.
Defined.

(** X15. An email that was registered cannot be registered again: after a
    successful registration, a second one for the same email is turned
    down, whatever its password, and leaves the table as it is. The answer
    is the one about the password if that has fewer than 6 characters, and
    "Email already registered" otherwise. *)
Theorem register_twice_is_refused
    (is_valid_email : string -> outcome bool)
    (hash_password : string -> outcome string)
    (create_access_token later_token : string -> outcome string)
    (email password other_password : string) (users : Users) :
  schemas.success
    (auth.register is_valid_email hash_password create_access_token email
       password users).2 = true ->
  auth.register is_valid_email hash_password later_token email
    other_password
    (auth.register is_valid_email hash_password create_access_token email
       password users).1
  = ((auth.register is_valid_email hash_password create_access_token email
        password users).1,
     auth.failure
       (if (characters other_password <? 6)%nat
        then "Password must be at least 6 characters long"
        else "Email already registered")).
Proof.
  intros Hsuccess.
  destruct (register_cases is_valid_email hash_password create_access_token
              email password users)
    as [[message Heq] | (hashed & Hvalid & _ & Hnew & _ & Heq)];
    rewrite Heq in Hsuccess |- *; simpl in Hsuccess |- *; [discriminate |].
  unfold auth.register at 1. rewrite Hvalid, len_characters.
  destruct (characters other_password <? 6)%nat; [done |].
  pose proof (first_by_email_insert users (next_user_id users)
                (registered email hashed users) (next_user_id_fresh users)
                Hnew) as Hfound.
  simpl in Hfound. by rewrite Hfound.
Qed.

Lemma register_twice_is_refused_witness :
  auth.register sample_utils.is_valid_email sample_utils.hash_password
    sample_utils.create_access_token "dave@example.org" "another-one"
    (auth.register sample_utils.is_valid_email sample_utils.hash_password
       sample_utils.create_access_token "dave@example.org" "hunter22" ∅).1
  = ((auth.register sample_utils.is_valid_email sample_utils.hash_password
        sample_utils.create_access_token "dave@example.org" "hunter22" ∅).1,
     auth.failure "Email already registered")
  /\ auth.register sample_utils.is_valid_email sample_utils.hash_password
       sample_utils.create_access_token "dave@example.org" "ééé"
       (auth.register sample_utils.is_valid_email
          sample_utils.hash_password sample_utils.create_access_token
          "dave@example.org" "hunter22" ∅).1
     = ((auth.register sample_utils.is_valid_email
           sample_utils.hash_password sample_utils.create_access_token
           "dave@example.org" "hunter22" ∅).1,
        auth.failure "Password must be at least 6 characters long").
Proof.
  split.
  - apply (register_twice_is_refused sample_utils.is_valid_email
             sample_utils.hash_password sample_utils.create_access_token
             sample_utils.create_access_token "dave@example.org" "hunter22"
             "another-one" ∅).
    by vm_compute.
  - apply (register_twice_is_refused sample_utils.is_valid_email
             sample_utils.hash_password sample_utils.create_access_token
             sample_utils.create_access_token "dave@example.org" "hunter22"
             "ééé" ∅).
    by vm_compute.
Defined.

(** X16. [login] succeeds only for a user of the table whose stored hash
    the password checks against, and then tells that user's key and email.
    An email no user has and a password that does not check get the same
    answer, "Invalid credentials". *)
Theorem login_needs_a_verified_user
    (verify_password : string -> string -> outcome bool)
    (create_access_token : string -> outcome string)
    (username password : string) (users : Users) :
  (schemas.success
     (auth.login verify_password create_access_token username password users)
   = true ->
   exists k user token,
     users !! k = Some user
     /\ models.email user = username
     /\ verify_password password (models.hashed_password user) = Return true
     /\ schemas.data
          (auth.login verify_password create_access_token username password
             users)
        = Some {| auth.access_token := token;
                  auth.token_type := "bearer";
                  auth.user_id := models.id user;
                  auth.email := username |})
  /\ ((forall k user,
         users !! k = Some user ->
         models.email user = username ->
         verify_password password (models.hashed_password user)
         = Return false) ->
      auth.login verify_password create_access_token username password users
      = auth.failure "Invalid credentials").
Proof.
  unfold auth.login.
  destruct (first_by_email users username) as [user|] eqn:Hfirst.
  - apply first_by_email_Some in Hfirst as [Hemail [k Hk]]. split.
    + destruct (verify_password password (models.hashed_password user))
        as [[]|e] eqn:Hverify; [| discriminate | discriminate].
      destruct (create_access_token (models.email user)) as [token|e];
        [| discriminate].
      intros _. exists k, user, token. by rewrite Hemail.
    + intros Hwrong. by rewrite (Hwrong k user Hk Hemail).
  - split; [discriminate | done].
Qed.

(** X17. A token that [login] issued, and that decodes to the email it was
    issued for, authenticates the user who logged in: [get_current_user]
    returns a user of the table with the key and the email the login
    answered with. *)
Theorem login_token_authenticates
    (verify_password : string -> string -> outcome bool)
    (create_access_token : string -> outcome string)
    (decode_token : string -> outcome (option string))
    (username password : string) (users : Users)
    (credentials : auth.Credentials) :
  schemas.data
    (auth.login verify_password create_access_token username password users)
  = Some credentials ->
  decode_token (auth.access_token credentials) = Return (Some username) ->
  username <> "" ->
  exists k user,
    current_user.get_current_user decode_token
      (auth.access_token credentials) users = Return user
    /\ users !! k = Some user
    /\ models.id user = auth.user_id credentials
    /\ models.email user = auth.email credentials.
Proof.
  unfold auth.login, current_user.get_current_user.
  intros Hlogin -> Hnonempty. simpl.
  assert (String.eqb username "" = false) as ->
    by by apply String.eqb_neq.
  simpl.
  destruct (first_by_email users username) as [user|] eqn:Hfirst;
    [| discriminate].
  destruct (verify_password password (models.hashed_password user))
    as [[]|e]; [| discriminate | discriminate].
  destruct (create_access_token (models.email user)) as [token|e];
    [| discriminate].
  injection Hlogin as <-. simpl.
  apply first_by_email_Some in Hfirst as [_ [k Hk]].
  by exists k, user.
Qed.

Lemma login_token_authenticates_witness :
  exists k user,
    current_user.get_current_user sample_utils.decode_token
      "token:carol@example.org" {[ 4 := sample_utils.carol ]} = Return user
    /\ ({[ 4 := sample_utils.carol ]} : Users) !! k = Some user
    /\ models.id user = 4
    /\ models.email user = "carol@example.org".
Proof.
  apply (login_token_authenticates sample_utils.verify_password
           sample_utils.create_access_token sample_utils.decode_token
           "carol@example.org" "s3cret!" {[ 4 := sample_utils.carol ]}
           {| auth.access_token := "token:carol@example.org";
              auth.token_type := "bearer";
              auth.user_id := 4;
              auth.email := "carol@example.org" |}).
  - by vm_compute.
  - by vm_compute.
  - discriminate.
Defined.

(** X18. [get_current_user] returns only users of the table, found by the
    non-empty email the token decodes to. Otherwise it raises: what the
    decoding raised, 401 "Invalid or expired token" for a token without an
    email, 401 "User not found" for an email no user has. *)
Theorem current_user_is_a_stored_user
    (decode_token : string -> outcome (option string))
    (token : string) (users : Users) :
  match current_user.get_current_user decode_token token users with
  | Return user =>
      exists k,
        users !! k = Some user
        /\ decode_token token = Return (Some (models.email user))
        /\ models.email user <> ""
  | Raise e =>
      decode_token token = Raise e
      \/ (e = HTTPException 401 "Invalid or expired token"
          /\ (decode_token token = Return None
              \/ decode_token token = Return (Some "")))
      \/ (e = HTTPException 401 "User not found"
          /\ exists email,
               decode_token token = Return (Some email)
               /\ forall k user,
                    users !! k = Some user -> models.email user <> email)
  end.
Proof.
  unfold current_user.get_current_user.
  destruct (decode_token token) as [[email|]|e]; simpl;
    [| right; left; by split; [| left] | by left].
  destruct (String.eqb_spec email "") as [->|Hnonempty]; simpl.
  - right. left. by split; [| right].
  - destruct (first_by_email users email) as [user|] eqn:Hfirst.
    + apply first_by_email_Some in Hfirst as [<- [k Hk]]. by exists k.
    + right. right. split; [done |]. exists email. split; [done |].
      by apply first_by_email_None.
Qed.

(** A wrong password and an unknown email are answered alike. *)
Example login_turned_down :
  auth.login sample_utils.verify_password sample_utils.create_access_token
    "carol@example.org" "guess" {[ 4 := sample_utils.carol ]}
  = auth.failure "Invalid credentials"
  /\ auth.login sample_utils.verify_password
       sample_utils.create_access_token "mallory@example.org" "s3cret!"
       {[ 4 := sample_utils.carol ]}
     = auth.failure "Invalid credentials".
Proof. by vm_compute. Qed.

(** ** Submission *)

(** X19. [submit_fal_job] makes at most one submission, and none without
    the key. What it returns is the request id the service gave, marked
    "submitted", with the endpoint it used: the edit endpoint, with the
    image inline as one data url, for image bytes that are not empty, the
    text-to-image endpoint, without an image, otherwise. What it raises is
    always an [HTTPException] 500: for the missing key, or wrapped around
    the failure of the service. *)
Theorem submit_fal_job_answers
    (FAL_API_KEY : option string) (b64encode : bytes -> string)
    (c : fal_client.Client) (prompt : string) (image_bytes : option bytes) :
  let endpoint :=
    if truthy_bytes image_bytes
    then "fal-ai/nano-banana/edit" else "fal-ai/nano-banana" in
  match fal_api.submit_fal_job FAL_API_KEY b64encode c prompt image_bytes
  with
  | (log, Return submission) =>
      truthy FAL_API_KEY = true
      /\ log = [SubmitRequest endpoint]
      /\ fal_api.submission_status submission = "submitted"
      /\ fal_api.submitted_application submission = endpoint
      /\ exists arguments,
           fal_client.submit c endpoint arguments
           = Return (fal_api.request_id submission)
           /\ fal_client.prompt arguments = prompt
           /\ fal_client.image_urls arguments
              = (if truthy_bytes image_bytes
                 then Some ["data:image/jpeg;base64,"
                            +:+ b64encode (default [] image_bytes)]
                 else None)
  | (log, Raise e) =>
      (truthy FAL_API_KEY = false /\ log = []
       /\ e = HTTPException 500 "FAL API key not configured")
      \/ (truthy FAL_API_KEY = true /\ log = [SubmitRequest endpoint]
          /\ exists cause,
               e = HTTPException 500
                     ("Failed to submit job to AI service: " +:+ str cause))
  end.
Proof.
  unfold fal_api.submit_fal_job.
  destruct (truthy FAL_API_KEY); simpl; [| by left].
  destruct image_bytes as [[|byte image_bytes]|]; simpl;
    match goal with
    | |- context [fal_client.submit ?c ?e ?a] =>
        destruct (fal_client.submit c e a) as [request_id|cause] eqn:Hsubmit
    end;
    first [ do 4 (split; [done |]); eexists; by split; [exact Hsubmit |]
          | right; do 2 (split; [done |]); by exists cause ].
Qed.

(** A submission the service does not take. *)
Example submit_fal_job_wraps_failure :
  fal_api.submit_fal_job (Some "fal-key") sample.b64 sample.unreachable
    "a red bicycle" None
  = ([SubmitRequest "fal-ai/nano-banana"],
     Raise (HTTPException 500
              "Failed to submit job to AI service: connection refused")).
Proof. reflexivity. Qed.
